(** * Nexacro license requester: a shallow embedding and its properties

    The development follows the three Python modules of the repository:

    - [src/config.py]: the record [Config] and the module [Cfg],
    - [src/session_manager.py]: the module [SessionManager],
    - [src/nexacro_license_requester.py]: the module [Requester].

    The Python [str] values that the program only compares, searches, joins
    and concatenates (variables of the environment, addresses, messages)
    are modelled as [string].  The body of a response, on which the program
    calls [str.upper], is a sequence of Unicode code points (module
    [Unicode]).  [str.upper] maps each character by the case mapping of the
    Unicode database; that table belongs to the interpreter and not to the
    repository, so it is taken as given (class [Unicode.CaseTable]), with
    what it does on the ASCII characters.

    Dictionaries ([os.environ], the query parameters, the [details] of a
    summary) are finite maps [gmap string string].

    Exceptions are the subclasses of Python's [Exception]; the
    interpreter-exiting ones ([KeyboardInterrupt], [SystemExit]) are not part
    of the model.  Code that raises is a function into [outcome], and code
    that talks to the network or to the logger threads a state through a
    small state-and-exception monad. *)

From Stdlib Require Import Ascii String.
From stdpp Require Import base option list strings gmap pretty.

Local Open Scope string_scope.

(** ** Text primitives *)

Module Text.

(** The capital of an ASCII letter; every other character is left as it
    is. *)
Definition upper_char (c : ascii) : ascii :=
  let n := nat_of_ascii c in
  if (97 <=? n)%nat && (n <=? 122)%nat then ascii_of_nat (n - 32) else c.

(** A word with its ASCII letters in capitals: the way to name the
    spellings of a word of the program (success, Success, SUCCESS). *)
Fixpoint upper (s : string) : string :=
  match s with
  | EmptyString => EmptyString
  | String c t => String (upper_char c) (upper t)
  end.

(** [hay.startswith(needle)] *)
Fixpoint starts_with (needle hay : string) : bool :=
  match needle, hay with
  | EmptyString, _ => true
  | String _ _, EmptyString => false
  | String a n, String b h => if ascii_dec a b then starts_with n h else false
  end.

(** [needle in hay]: the substring test of Python strings. *)
Fixpoint contains (needle hay : string) : bool :=
  starts_with needle hay ||
  match hay with
  | EmptyString => false
  | String _ t => contains needle t
  end.

(** [sep.join(parts)] *)
Fixpoint join (sep : string) (parts : list string) : string :=
  match parts with
  | [] => ""
  | [p] => p
  | p :: rest => p +:+ sep +:+ join sep rest
  end.

(** The substring relation, stated without reference to [contains]. *)
Definition substring_of (needle hay : string) : Prop :=
  ∃ pre post, hay = pre +:+ needle +:+ post.

End Text.

(** ** Unicode text *)

Module Unicode.

Definition code_point : Type := N.

(** A Python [str] as the sequence of its code points. *)
Definition ustring : Type := list code_point.

(** A string literal of the program, or a sample body, as text: one code
    point for each character. *)
Fixpoint lit (s : string) : ustring :=
  match s with
  | EmptyString => []
  | String c t => N_of_ascii c :: lit t
  end.

(** What [str.upper] does to an ASCII character. *)
Definition ascii_upper (c : code_point) : code_point :=
  if (97 <=? c)%N && (c <=? 122)%N then (c - 32)%N else c.

(** The upper-case mapping of the Unicode database: the characters that
    [str.upper] puts for one character (one for most, several for some,
    as SS for the sharp s).  The table is the interpreter's; of its content
    the development uses the ASCII part alone. *)
Class CaseTable : Type := {
  upper_cp : code_point → ustring;
  upper_cp_ascii : ∀ c, (c < 128)%N → upper_cp c = [ascii_upper c];
}.

(** [s.upper()]: each character is replaced by its upper-case mapping. *)
Definition upper `{CaseTable} (s : ustring) : ustring :=
  flat_map upper_cp s.

(** [hay.startswith(needle)] *)
Fixpoint starts_with (needle hay : ustring) : bool :=
  match needle, hay with
  | [], _ => true
  | _ :: _, [] => false
  | a :: n, b :: h => (a =? b)%N && starts_with n h
  end.

(** [needle in hay]: the substring test of Python strings. *)
Fixpoint contains (needle hay : ustring) : bool :=
  starts_with needle hay ||
  match hay with
  | [] => false
  | _ :: t => contains needle t
  end.

(** The substring relation, stated without reference to [contains]. *)
Definition occurs (needle hay : ustring) : Prop :=
  ∃ pre post, hay = (pre ++ needle ++ post)%list.

(** [needle] occurs in [hay] when the comparison ignores case: it occurs
    once both are in upper case. *)
Definition occurs_ignoring_case `{CaseTable}
    (needle hay : ustring) : Prop :=
  occurs (upper needle) (upper hay).

(** A word all of whose characters are ASCII characters. *)
Definition ascii_only (s : string) : Prop :=
  Forall (λ c, (c < 128)%N) (lit s).

(** The table that maps the ASCII letters and nothing else; it serves to
    run the program on sample bodies, which are ASCII. *)
Definition ascii_table : CaseTable :=
  {| upper_cp := λ c, [ascii_upper c];
     upper_cp_ascii := λ c _, eq_refl |}.

End Unicode.

(** ** Exceptions and effects *)

(** The exception classes the program raises or handles.  The first three
    are [requests.exceptions]; [ConnectTimeout], which derives from both
    [ConnectionError] and [Timeout], is handled by the first matching
    [except] clause and therefore belongs to [Timeout] here.  The next
    three are [src/exceptions.py].  [OtherException] stands for every other
    subclass of [Exception], with its class name and [str(e)]. *)
Inductive exn : Type :=
  | Timeout (msg : string)
  | ConnectionError (msg : string)
  | HTTPError (msg : string)
  | NetworkError (msg : string)
  | AuthenticationError (msg : string)
  | LicenseRequestError (msg : string)
  | ValueError (msg : string)
  | OtherException (class_name msg : string).

(** [str(e)] *)
Definition str (e : exn) : string :=
  match e with
  | Timeout m | ConnectionError m | HTTPError m
  | NetworkError m | AuthenticationError m | LicenseRequestError m
  | ValueError m | OtherException _ m => m
  end.

Inductive outcome (A : Type) : Type :=
  | Return (a : A)
  | Raise (e : exn).
Arguments Return {A} a.
Arguments Raise {A} e.

Definition raises {A} (o : outcome A) : Prop :=
  match o with Return _ => False | Raise _ => True end.

(** Computations over a state [S] that return a value or raise. *)
Definition Eff (S A : Type) : Type := S → outcome A * S.

Module Eff.
Section Ops.
Context {S : Type}.

Definition ret {A} (a : A) : Eff S A := λ s, (Return a, s).

Definition raise {A} (e : exn) : Eff S A := λ s, (Raise e, s).

Definition bind {A B} (m : Eff S A) (k : A → Eff S B) : Eff S B :=
  λ s, match m s with
       | (Return a, s') => k a s'
       | (Raise e, s') => (Raise e, s')
       end.

(** A value computed without touching the state. *)
Definition pure {A} (o : outcome A) : Eff S A := λ s, (o, s).

(** [try: body except ...]: [handler e] is the suite of the first
    [except] clause that matches [e], or [None] when no clause does and
    the exception propagates. *)
Definition try_except {A} (body : Eff S A)
    (handler : exn → option (Eff S A)) : Eff S A :=
  λ s, match body s with
       | (Return a, s') => (Return a, s')
       | (Raise e, s') =>
           match handler e with
           | Some h => h s'
           | None => (Raise e, s')
           end
       end.

(** [try: body finally: cleanup], for a cleanup that does not raise. *)
Definition finally {A} (body : Eff S A) (cleanup : S → S) : Eff S A :=
  λ s, let '(r, s') := body s in (r, cleanup s').

Definition modify (f : S → S) : Eff S unit := λ s, (Return tt, f s).
End Ops.

(** Run a computation on a component of a larger state. *)
Definition lift {S T A} (get : T → S) (set : S → T → T)
    (m : Eff S A) : Eff T A :=
  λ t, let '(r, s') := m (get t) in (r, set s' t).
End Eff.

Global Instance Eff_ret {S} : MRet (Eff S) := λ A a, Eff.ret a.
Global Instance Eff_bind {S} : MBind (Eff S) := λ A B k m, Eff.bind m k.

(** ** src/config.py *)

Record Config : Type := {
  user_id : string;
  user_pass : string;
  customer_id : string;
  email : string;
  homepage_url : string;
  login_url : string;
  license_url : string;
  request_timeout : Z;
  max_retries : Z;
}.

Module Cfg.

(** The dataclass constructor with its default field values. *)
Definition make (uid upass cid mail : string) : Config := {|
  user_id := uid;
  user_pass := upass;
  customer_id := cid;
  email := mail;
  homepage_url := "https://support.tobesoft.co.kr/Support/?menu=home";
  login_url :=
    "https://support.tobesoft.co.kr/Next_JSP/CS-Homepage"
      +:+ "/Next_JSP/Login/Login_new.jsp";
  license_url := "https://next.tobesoft.com/FrontControllerServlet.do";
  request_timeout := 30;
  max_retries := 3;
|}.

Definition required_vars : list string :=
  ["NEXACRO_USER_ID"; "NEXACRO_USER_PASS"; "NEXACRO_EMAIL"].

(** [os.getenv(var)] *)
Definition getenv (env : gmap string string) (var : string) : option string :=
  env !! var.

(** Truth value of [os.getenv(var)]: [None] and the empty string are
    falsy. *)
Definition truthy (v : option string) : bool :=
  match v with
  | None => false
  | Some "" => false
  | Some _ => true
  end.

(** [[var for var in required_vars if not os.getenv(var)]] *)
Definition missing (env : gmap string string) : list string :=
  filter (λ var, truthy (getenv env var) = false) required_vars.

(** [os.environ[var]] *)
Definition environ_item (env : gmap string string) (var : string)
    : outcome string :=
  match env !! var with
  | Some v => Return v
  | None => Raise (OtherException "KeyError" ("'" +:+ var +:+ "'"))
  end.

Definition missing_message (names : list string) : string :=
  "Missing required environment variables: " +:+ Text.join ", " names.

(** [Config.from_env] *)
Definition from_env (env : gmap string string) : outcome Config :=
  match missing env with
  | (_ :: _) as names => Raise (ValueError (missing_message names))
  | [] =>
      match environ_item env "NEXACRO_USER_ID" with
      | Raise e => Raise e
      | Return uid =>
          match environ_item env "NEXACRO_USER_PASS" with
          | Raise e => Raise e
          | Return upass =>
              match environ_item env "NEXACRO_EMAIL" with
              | Raise e => Raise e
              | Return mail => Return (make uid upass uid mail)
              end
          end
      end
  end.

(** [Config.validate] *)
Definition validate (self : Config) : outcome unit :=
  if String.eqb (email self) "" || negb (Text.contains "@" (email self))
  then Raise (ValueError ("Invalid email format: " +:+ email self))
  else Return tt.

End Cfg.

(** ** The HTTP client as the program sees it *)

Inductive http_method : Type := GET | POST.

(** One call on the [requests.Session]: what [session.get] or
    [session.post] is given, with the headers that the program has set,
    on the session or for the call.  The headers that the library adds by
    itself and the cookies it keeps for the session are its own affair and
    are not listed. *)
Record http_call : Type := {
  meth : http_method;
  url : string;
  params : gmap string string;
  data : option string;
  headers : gmap string string;
  timeout : Z;
}.

(** A response: [status_code], [reason], [url] (the address the response
    came from), [text] (the decoded body) and the items of [cookies]. *)
Record response : Type := {
  status_code : Z;
  reason : string;
  response_url : string;
  text : Unicode.ustring;
  cookies : list (string * string);
}.

(** What the transport does with a call: it hands back a response or
    raises. *)
Inductive transport_outcome : Type :=
  | Responded (r : response)
  | Failed (e : exn).

(** The network as one run observes it: how the remote side answers a call
    given the calls made before it, the calls made so far (oldest first),
    and whether the current session has been closed.  What the library
    keeps inside the session between the calls (its cookie jar, its
    connections) is part of how the remote side answers, since the answer
    may depend on all the calls made before. *)
Record Net : Type := {
  remote : list http_call → http_call → transport_outcome;
  calls : list http_call;
  closed : bool;
}.

Definition record_call (c : http_call) (n : Net) : Net :=
  {| remote := remote n; calls := calls n ++ [c]; closed := closed n |}.

Definition set_closed (b : bool) (n : Net) : Net :=
  {| remote := remote n; calls := calls n; closed := b |}.

(** [session.request(...)]: the call is made and the transport answers. *)
Definition send (c : http_call) : Eff Net response :=
  λ n, match remote n (calls n) c with
       | Responded r => (Return r, record_call c n)
       | Failed e => (Raise e, record_call c n)
       end.

(** [response.raise_for_status()] of the requests library: an [HTTPError]
    for a status code in 400..599, nothing otherwise. *)
Definition raise_for_status (r : response) : outcome unit :=
  if bool_decide (400 ≤ status_code r < 500)%Z then
    Raise (HTTPError (pretty (status_code r) +:+ " Client Error: " +:+ reason r
                      +:+ " for url: " +:+ response_url r))
  else if bool_decide (500 ≤ status_code r < 600)%Z then
    Raise (HTTPError (pretty (status_code r) +:+ " Server Error: " +:+ reason r
                      +:+ " for url: " +:+ response_url r))
  else Return tt.

(** [dict(items)]: a later item replaces an earlier one with the same key. *)
Definition dict (items : list (string * string)) : gmap string string :=
  foldl (λ m kv, <[kv.1 := kv.2]> m) ∅ items.

(** ** src/session_manager.py *)

Module SessionManager.

Definition dq : string := String "034"%char EmptyString.
Definition nl : string := String "010"%char EmptyString.
Definition tab : string := String "009"%char EmptyString.

(** [s] between double quotes. *)
Definition quoted (s : string) : string := dq +:+ s +:+ dq.

(** The headers that [__init__] puts on the session. *)
Definition session_headers : gmap string string :=
  {[ "User-Agent" :=
       "Mozilla/5.0 (Macintosh; Intel Mac OS X 10_15_7) AppleWebKit/537.36" ]}.

(** [self.session.get(url, params=..., timeout=...)] *)
Definition session_get (u : string) (ps : gmap string string) (t : Z)
    : http_call :=
  {| meth := GET; url := u; params := ps; data := None;
     headers := session_headers; timeout := t |}.

(** [self.session.post(url, data=..., headers=..., timeout=...)] *)
Definition session_post (u : string) (body : string)
    (hs : gmap string string) (t : Z) : http_call :=
  {| meth := POST; url := u; params := ∅; data := Some body;
     headers := hs ∪ session_headers; timeout := t |}.

(** [s] after [k] tab characters. *)
Definition tabs (k : nat) (s : string) : string :=
  foldr (λ t acc, t +:+ acc) s (replicate k tab).

(** An opening tag with one attribute [id]. *)
Definition tag_id (name id : string) : string :=
  "<" +:+ name +:+ " id=" +:+ quoted id +:+ ">".

(** A column declaration of the dataset. *)
Definition column (id : string) : string :=
  "<Column id=" +:+ quoted id +:+ " type=" +:+ quoted "STRING"
    +:+ " size=" +:+ quoted "256" +:+ " />".

(** The text of the template before the user id: its lines up to the
    opening tag of the first column of the row. *)
Definition login_xml_head : string :=
  Text.join nl
    [ "<?xml version=" +:+ quoted "1.0"
        +:+ " encoding=" +:+ quoted "UTF-8" +:+ "?>";
      "<Root xmlns="
        +:+ quoted "http://www.nexacroplatform.com/platform/dataset" +:+ ">";
      tabs 1 "<Parameters>";
      tabs 2 (tag_id "Parameter" "RTYPE" +:+ "XML</Parameter>");
      tabs 2 (tag_id "Parameter" "DB" +:+ "CS</Parameter>");
      tabs 2 (tag_id "Parameter" "DBUSER" +:+ "POTAL_USER</Parameter>");
      tabs 1 "</Parameters>";
      tabs 1 (tag_id "Dataset" "input");
      tabs 2 "<ColumnInfo>";
      tabs 3 (column "userId");
      tabs 3 (column "userPass");
      tabs 2 "</ColumnInfo>";
      tabs 2 "<Rows>";
      tabs 3 "<Row>";
      tabs 4 (tag_id "Col" "userId") ].

(** The text between the user id and the password. *)
Definition login_xml_mid : string :=
  Text.join nl [ "</Col>"; tabs 4 (tag_id "Col" "userPass") ].

(** The text after the password. *)
Definition login_xml_tail : string :=
  Text.join nl
    [ "</Col>";
      tabs 3 "</Row>";
      tabs 2 "</Rows>";
      tabs 1 "</Dataset>";
      "</Root>" ].

(** [SessionManager._build_login_xml]: the f-string puts the two
    configuration values into the template as they are. *)
Definition _build_login_xml (config : Config) : string :=
  login_xml_head +:+ user_id config +:+ login_xml_mid
    +:+ user_pass config +:+ login_xml_tail.

(** [SessionManager._build_license_params] *)
Definition _build_license_params (config : Config) : gmap string string :=
  <["service" := "xupservice"]> $
  <["domain" := "NEXTp"]> $
  <["model" := "CE_LicenseEMailSend_R01"]> $
  <["format" := "xml"]> $
  <["version" := "xplatform"]> $
  <["p_ConType" := "TECH2"]> $
  <["p_Product" := "NP14"]> $
  <["p_Language" := "KOR"]> $
  <["p_CustomID" := customer_id config]> $
  <["p_Email" := email config]> $
  <["p_Merge" := "N"]> $
  <["zip" := "false"]> ∅.

Definition homepage_call (config : Config) : http_call :=
  session_get (homepage_url config) ∅ (request_timeout config).

Definition login_call (config : Config) : http_call :=
  session_post (login_url config) (_build_login_xml config)
    {[ "Content-Type" := "text/xml; charset=UTF-8" ]}
    (request_timeout config).

Definition license_call (config : Config) : http_call :=
  session_get (license_url config) (_build_license_params config)
    (request_timeout config).

(** [SessionManager.establish_session] *)
Definition establish_session (config : Config)
    : Eff Net (gmap string string) :=
  Eff.try_except
    (response ← send (homepage_call config);
     Eff.pure (raise_for_status response);;
     mret (dict (cookies response)))
    (λ e, match e with
          | Timeout _ =>
              Some (Eff.raise
                (NetworkError ("Request timeout: " +:+ homepage_url config)))
          | ConnectionError _ =>
              Some (Eff.raise
                (NetworkError ("Connection failed: " +:+ homepage_url config)))
          | HTTPError m =>
              Some (Eff.raise (NetworkError ("HTTP error: " +:+ m)))
          | _ => None
          end).

(** [SessionManager.login] *)
Definition login `{Unicode.CaseTable} (config : Config) : Eff Net bool :=
  Eff.try_except
    (response ← send (login_call config);
     Eff.pure (raise_for_status response);;
     if Unicode.contains (Unicode.lit "SUCCESS")
          (Unicode.upper (text response))
     then mret true
     else Eff.raise
            (AuthenticationError
               "Login failed: Invalid credentials or response"))
    (λ e, match e with
          | Timeout _ =>
              Some (Eff.raise (NetworkError "Request timeout during login"))
          | ConnectionError _ =>
              Some (Eff.raise (NetworkError "Connection failed during login"))
          | HTTPError m =>
              Some (Eff.raise
                (NetworkError ("HTTP error during login: " +:+ m)))
          | _ => None
          end).

(** [SessionManager.request_license_email] *)
Definition request_license_email `{Unicode.CaseTable} (config : Config)
    : Eff Net bool :=
  Eff.try_except
    (response ← send (license_call config);
     Eff.pure (raise_for_status response);;
     if Unicode.contains (Unicode.lit "FAIL")
          (Unicode.upper (text response))
     then Eff.raise (LicenseRequestError "License request failed")
     else if Unicode.contains (Unicode.lit "SUCCESS")
               (Unicode.upper (text response))
     then mret true
     else Eff.raise
            (LicenseRequestError "License request failed: Unknown response"))
    (λ e, match e with
          | Timeout _ =>
              Some (Eff.raise
                (NetworkError "Request timeout during license request"))
          | ConnectionError _ =>
              Some (Eff.raise
                (NetworkError "Connection failed during license request"))
          | HTTPError m =>
              Some (Eff.raise
                (NetworkError ("HTTP error during license request: " +:+ m)))
          | _ => None
          end).

(** [__init__] and [__enter__]: a fresh, open session. *)
Definition enter : Net → Net := set_closed false.

(** [__exit__]: [self.session.close()]; it returns [None], so an
    exception of the block is not suppressed. *)
Definition exit : Net → Net := set_closed true.

End SessionManager.

(** ** src/nexacro_license_requester.py *)

Inductive log_level : Type := INFO | ERROR.

Record log_record : Type := {
  logger_name : string;
  level : log_level;
  message : string;
}.

(** What a run of the program acts on: the network, the records logged so
    far (oldest first), and how setting up the log directory and log file
    ends on this machine ([None]: it succeeds, [Some e]: it raises [e]). *)
Record World : Type := {
  net : Net;
  log : list log_record;
  log_setup_failure : option exn;
}.

Definition set_net (n : Net) (w : World) : World :=
  {| net := n; log := log w; log_setup_failure := log_setup_failure w |}.

Definition add_log (r : log_record) (w : World) : World :=
  {| net := net w; log := log w ++ [r];
     log_setup_failure := log_setup_failure w |}.

Module Requester.

Definition nl : string := SessionManager.nl.

(** [self.logger.info(msg)] and [self.logger.error(msg)] *)
Definition logger_info (msg : string) : Eff World unit :=
  Eff.modify (add_log {| logger_name := "NexacroLicenseRequester";
                         level := INFO; message := msg |}).

Definition logger_error (msg : string) : Eff World unit :=
  Eff.modify (add_log {| logger_name := "NexacroLicenseRequester";
                         level := ERROR; message := msg |}).

(** [logging.error(msg)], on the root logger. *)
Definition logging_error (msg : string) : Eff World unit :=
  Eff.modify (add_log {| logger_name := "root";
                         level := ERROR; message := msg |}).

(** [details.get(key, default)] *)
Definition get (details : gmap string string) (key fallback : string)
    : string :=
  default fallback (details !! key).

(** The text of the summary of a successful and of a failed run. *)
Definition success_summary (details : gmap string string) : string :=
  "=== LICENSE REQUEST SUCCESS ===" +:+ nl +:+
  "User: " +:+ get details "user_id" "N/A" +:+ nl +:+
  "Customer: " +:+ get details "customer_id" "N/A" +:+ nl +:+
  "Email: " +:+ get details "email" "N/A".

Definition failure_summary (details : gmap string string) : string :=
  "=== LICENSE REQUEST FAILED ===" +:+ nl +:+
  "Error: " +:+ get details "error" "Unknown" +:+ nl +:+
  "Message: " +:+ get details "message" "No details".

(** [NexacroLicenseRequester._log_request_summary] *)
Definition _log_request_summary (success : bool)
    (details : gmap string string) : Eff World unit :=
  if success then logger_info (success_summary details)
  else logger_error (failure_summary details).

(** A method of the session manager, run on the network of the world. *)
Definition on_session {A} (m : Eff Net A) : Eff World A :=
  Eff.lift net set_net m.

(** [with SessionManager(self.config) as session: body] *)
Definition with_session {A} (body : Eff World A) : Eff World A :=
  Eff.finally
    (Eff.modify (λ w : World, set_net (SessionManager.enter (net w)) w);; body)
    (λ w, set_net (SessionManager.exit (net w)) w).

(** The three steps, as the suite of the [with] statement runs them. *)
Definition steps `{Unicode.CaseTable} (config : Config) : Eff World unit :=
  logger_info "Step 1/3: Establishing session";;
  cookies ← on_session (SessionManager.establish_session config);
  logger_info ("Session established with "
               +:+ pretty (size cookies) +:+ " cookies");;
  logger_info "Step 2/3: Authenticating";;
  on_session (SessionManager.login config);;
  logger_info ("Authentication successful for user: " +:+ user_id config);;
  logger_info "Step 3/3: Requesting license";;
  on_session (SessionManager.request_license_email config);;
  logger_info ("License request submitted successfully for "
               +:+ email config).

(** The suite of the [try] statement of [request_license]. *)
Definition workflow `{Unicode.CaseTable} (config : Config)
    : Eff World bool :=
  logger_info "Starting Nexacro license request workflow";;
  with_session (steps config);;
  _log_request_summary true
    (<["user_id" := user_id config]> $
     <["customer_id" := customer_id config]> $
     <["email" := email config]> ∅);;
  mret true.

(** The details a handler of [request_license] reports. *)
Definition failure_details (category : string) (e : exn)
    : gmap string string :=
  <["error" := category]> $ <["message" := str e]> ∅.

(** The suite of one [except] clause of [request_license]. *)
Definition report (headline category : string) (e : exn) : Eff World bool :=
  logger_error (headline +:+ str e);;
  _log_request_summary false (failure_details category e);;
  mret false.

(** [NexacroLicenseRequester.request_license] *)
Definition request_license `{Unicode.CaseTable} (config : Config)
    : Eff World bool :=
  Eff.try_except (workflow config)
    (λ e, match e with
          | NetworkError _ =>
              Some (report "Network error during workflow: " "Network error" e)
          | AuthenticationError _ =>
              Some (report "Authentication failed: " "Authentication failed" e)
          | LicenseRequestError _ =>
              Some (report "License request failed: "
                      "License request failed" e)
          | _ =>
              Some (report "Unexpected error during workflow: "
                      "Unexpected error" e)
          end).

(** [NexacroLicenseRequester.__init__]: [_setup_logger] creates the log
    directory and opens the log file, which the file system may refuse. *)
Definition init (config : Config) : Eff World unit :=
  λ w, match log_setup_failure w with
       | Some e => (Raise e, w)
       | None => (Return tt, w)
       end.

(** [main], given the environment of the process. *)
Definition main `{Unicode.CaseTable} (env : gmap string string)
    : Eff World Z :=
  Eff.try_except
    (config ← Eff.pure (Cfg.from_env env);
     Eff.pure (Cfg.validate config);;
     init config;;
     success ← request_license config;
     mret (if (success : bool) then 0 else 1)%Z)
    (λ e, match e with
          | ValueError _ =>
              Some (logging_error ("Configuration error: " +:+ str e);;
                    mret 1%Z)
          | _ =>
              Some (logging_error ("Fatal error: " +:+ str e);; mret 1%Z)
          end).

End Requester.

(** ** Notions the statements use *)

(** A response that [raise_for_status] lets through. *)
Definition accepted (r : response) : Prop :=
  ¬ (400 ≤ status_code r < 600)%Z.

(** The remote side answers the call [c], made in the state [n], with the
    response [r]. *)
Definition answers (n : Net) (c : http_call) (r : response) : Prop :=
  remote n (calls n) c = Responded r.

(** Escaping of a value put into an XML element body: the characters
    ampersand, less-than, greater-than and the two quotes. *)
Definition xml_escape_char (c : ascii) : string :=
  if ascii_dec c "&" then "&amp;"
  else if ascii_dec c "<" then "&lt;"
  else if ascii_dec c ">" then "&gt;"
  else if ascii_dec c "034" then "&quot;"
  else if ascii_dec c "'" then "&apos;"
  else String c EmptyString.

Fixpoint xml_escape (s : string) : string :=
  match s with
  | EmptyString => EmptyString
  | String c t => xml_escape_char c +:+ xml_escape t
  end.

(** Character data of XML 1.0: text with no less-than sign and no
    ampersand in it. *)
Definition chardata (s : string) : bool :=
  negb (Text.contains "<" s) && negb (Text.contains "&" s).

(** The category under which the summary of a failed run reports an
    exception. *)
Definition category (e : exn) : string :=
  match e with
  | NetworkError _ => "Network error"
  | AuthenticationError _ => "Authentication failed"
  | LicenseRequestError _ => "License request failed"
  | _ => "Unexpected error"
  end.

(** The three classes the orchestrator names in its [except] clauses. *)
Definition named_class (e : exn) : Prop :=
  match e with
  | NetworkError _ | AuthenticationError _ | LicenseRequestError _ => True
  | _ => False
  end.

(** The log record that summarises a failed run. *)
Definition failure_record (cat msg : string) : log_record :=
  {| logger_name := "NexacroLicenseRequester";
     level := ERROR;
     message := "=== LICENSE REQUEST FAILED ===" +:+ SessionManager.nl +:+
                "Error: " +:+ cat +:+ SessionManager.nl +:+
                "Message: " +:+ msg |}.

(** ** Sample inputs *)

Module Sample.

Definition config : Config :=
  Cfg.make "test_user" "test_pass" "test_user" "test@example.com".

Definition ok_response (body : string) : response :=
  {| status_code := 200; reason := "OK";
     response_url := "https://support.tobesoft.co.kr/";
     text := Unicode.lit body; cookies := [] |}.

(** A network whose remote side answers every call with status 200 and
    the body [body]. *)
Definition echo (body : string) : Net :=
  {| remote := λ _ _, Responded (ok_response body);
     calls := []; closed := false |}.

(** A portal that answers the homepage, the login and the license call
    with the given outcomes, whatever was called before. *)
Definition portal (home login license : transport_outcome) : Net :=
  {| remote := λ _ c,
       match meth c with
       | POST => login
       | GET => if bool_decide (params c = ∅) then home else license
       end;
     calls := []; closed := false |}.

Definition world (n : Net) : World :=
  {| net := n; log := []; log_setup_failure := None |}.

Definition env : gmap string string :=
  <["NEXACRO_USER_ID" := "test_user"]> $
  <["NEXACRO_USER_PASS" := "test_pass"]> $
  <["NEXACRO_EMAIL" := "test@example.com"]> ∅.

(** A configuration whose password has an ampersand and angle brackets
    in it. *)
Definition config_special : Config :=
  Cfg.make "test_user" "R&D<1>" "test_user" "test@example.com".

(** A world whose portal accepts the homepage call and answers the login
    call with a rejection. *)
Definition world_login_rejected : World :=
  world (portal (Responded (ok_response "<html></html>"))
                (Responded (ok_response "<Result>FAIL</Result>"))
                (Responded (ok_response "<Result>SUCCESS</Result>"))).

(** A world in which the transport fails at the first call with an
    exception of a class the program does not know. *)
Definition world_unreachable : World :=
  world (portal (Failed (OtherException "Exception" "Connection refused"))
                (Responded (ok_response "<Result>SUCCESS</Result>"))
                (Responded (ok_response "<Result>SUCCESS</Result>"))).

(** A world whose portal accepts all three calls. *)
Definition world_ok : World :=
  world (portal (Responded (ok_response "<html></html>"))
                (Responded (ok_response "<Result>SUCCESS</Result>"))
                (Responded (ok_response "<Result>SUCCESS</Result>"))).

(** An environment in which the user id is set, to the empty string. *)
Definition env_blank_id : gmap string string :=
  <["NEXACRO_USER_ID" := EmptyString]> $
  <["NEXACRO_USER_PASS" := "test_pass"]> $
  <["NEXACRO_EMAIL" := "test@example.com"]> ∅.

(** An environment with the user id alone. *)
Definition env_id_only : gmap string string :=
  <["NEXACRO_USER_ID" := "test_user"]> ∅.

End Sample.

(** ** The set-up of the logger *)

(** [NexacroLicenseRequester._setup_logger] acts on the logger that the
    logging module keeps under the name of the class, and on the file
    system.  The logger has a level and a list of handlers; the file system
    is seen through what the two operations on it do: creating the log
    directory and opening the log file each either succeed or raise. *)
Module Logging.

Inductive sink : Type :=
  | FileSink (path mode encoding : string)
  | StreamSink.

Record handler : Type := {
  handler_sink : sink;
  handler_level : log_level;
  handler_format : string;
}.

Record LogSystem : Type := {
  logger_level : option log_level;
  handlers : list handler;
  mkdir_failure : option exn;
  open_failure : option exn;
  opened : list string;
}.

Definition log_format : string :=
  "%(asctime)s - %(name)s - %(levelname)s - %(message)s".

Definition log_file : string := "logs/nexacro_license_request.log".

(** [logger.setLevel(logging.INFO)] *)
Definition set_level (l : log_level) : Eff LogSystem unit :=
  Eff.modify (λ s, {| logger_level := Some l; handlers := handlers s;
                      mkdir_failure := mkdir_failure s;
                      open_failure := open_failure s;
                      opened := opened s |}).

(** [log_dir.mkdir(exist_ok=True)] *)
Definition mkdir : Eff LogSystem unit :=
  λ s, match mkdir_failure s with
       | Some e => (Raise e, s)
       | None => (Return tt, s)
       end.

(** [logging.FileHandler(log_file, mode=..., encoding=...)] followed by
    [setLevel] and [setFormatter]: the file is opened when the handler is
    made. *)
Definition file_handler : Eff LogSystem handler :=
  λ s, match open_failure s with
       | Some e => (Raise e, s)
       | None =>
           (Return {| handler_sink := FileSink log_file "a" "utf-8";
                      handler_level := INFO;
                      handler_format := log_format |},
            {| logger_level := logger_level s; handlers := handlers s;
               mkdir_failure := mkdir_failure s;
               open_failure := open_failure s;
               opened := opened s ++ [log_file] |})
       end.

(** [logging.StreamHandler()] followed by [setLevel] and [setFormatter]. *)
Definition console_handler : handler :=
  {| handler_sink := StreamSink; handler_level := INFO;
     handler_format := log_format |}.

(** [logger.addHandler(h)] *)
Definition add_handler (h : handler) : Eff LogSystem unit :=
  Eff.modify (λ s, {| logger_level := logger_level s;
                      handlers := handlers s ++ [h];
                      mkdir_failure := mkdir_failure s;
                      open_failure := open_failure s;
                      opened := opened s |}).

(** [if not logger.handlers: ...]: the two handlers are added to a
    logger that has none. *)
Definition add_if_none (fh ch : handler) : Eff LogSystem unit :=
  λ s, match handlers s with
       | [] => (add_handler fh;; add_handler ch) s
       | _ :: _ => (Return tt, s)
       end.

(** [NexacroLicenseRequester._setup_logger] *)
Definition _setup_logger : Eff LogSystem unit :=
  set_level INFO;;
  mkdir;;
  fh ← file_handler;
  add_if_none fh console_handler.

End Logging.

(** ** Further notions *)

(** The exception classes of the requests library that the session
    manager handles. *)
Definition requests_exception (e : exn) : Prop :=
  match e with
  | Timeout _ | ConnectionError _ | HTTPError _ => True
  | _ => False
  end.


(** The transport fails the call [c], made in the state [n], with [e]. *)
Definition fails (n : Net) (c : http_call) (e : exn) : Prop :=
  remote n (calls n) c = Failed e.

(** The three calls of a run, in the order of the steps. *)
Definition planned_calls (config : Config) : list http_call :=
  [SessionManager.homepage_call config; SessionManager.login_call config;
   SessionManager.license_call config].

(** The log record that summarises a successful run. *)
Definition success_record (config : Config) : log_record :=
  {| logger_name := "NexacroLicenseRequester";
     level := INFO;
     message := "=== LICENSE REQUEST SUCCESS ===" +:+ SessionManager.nl +:+
                "User: " +:+ user_id config +:+ SessionManager.nl +:+
                "Customer: " +:+ customer_id config +:+ SessionManager.nl +:+
                "Email: " +:+ email config |}.

(** The first record of every run. *)
Definition starting_record : log_record :=
  {| logger_name := "NexacroLicenseRequester";
     level := INFO;
     message := "Starting Nexacro license request workflow" |}.

(** The record [main] logs for a configuration error. *)
Definition configuration_error_record (msg : string) : log_record :=
  {| logger_name := "root"; level := ERROR;
     message := "Configuration error: " +:+ msg |}.

(** The configuration with another retry count. *)
Definition with_max_retries (k : Z) (config : Config) : Config :=
  {| user_id := user_id config; user_pass := user_pass config;
     customer_id := customer_id config; email := email config;
     homepage_url := homepage_url config; login_url := login_url config;
     license_url := license_url config;
     request_timeout := request_timeout config; max_retries := k |}.

(** The network after a run that made the first [k] of its calls: the
    remote side is the same, the calls are added, the session is closed. *)
Definition after_calls (config : Config) (k : nat) (n : Net) : Net :=
  {| remote := remote n;
     calls := calls n ++ take k (planned_calls config);
     closed := true |}.

(** What a run leaves behind: the boolean, the network after [k] calls,
    the records added to the log, of which [final] is the last. *)
Definition run_leaves `{Unicode.CaseTable} (config : Config) (w : World)
    (b : bool) (k : nat) (final : log_record) : Prop :=
  ∃ w' new,
    Requester.request_license config w = (Return b, w') ∧
    net w' = after_calls config k (net w) ∧
    log_setup_failure w' = log_setup_failure w ∧
    log w' = (log w ++ new)%list ∧
    head new = Some starting_record ∧
    last new = Some final.

(** ** Further sample inputs *)

Module Sample2.

(** A response with status 500 whose body has the word of success. *)
Definition error_response : response :=
  {| status_code := 500; reason := "Internal Server Error";
     response_url := "https://support.tobesoft.co.kr/";
     text := Unicode.lit "<Result>SUCCESS</Result>"; cookies := [] |}.

(** A network whose remote side answers every call with [r]. *)
Definition always (r : response) : Net :=
  {| remote := λ _ _, Responded r; calls := []; closed := false |}.

(** A network whose transport fails every call with [e]. *)
Definition broken (e : exn) : Net :=
  {| remote := λ _ _, Failed e; calls := []; closed := false |}.


(** The world of a second run: the log already has a record. *)
Definition world_ok_logged : World :=
  {| net := net Sample.world_ok;
     log := [starting_record];
     log_setup_failure := None |}.

(** An environment whose email address has no at sign. *)
Definition env_bad_email : gmap string string :=
  <["NEXACRO_USER_ID" := "test_user"]> $
  <["NEXACRO_USER_PASS" := "test_pass"]> $
  <["NEXACRO_EMAIL" := "invalid-email.com"]> ∅.

(** A world in which the log directory cannot be made. *)
Definition world_no_log_dir : World :=
  {| net := net Sample.world_ok;
     log := [];
     log_setup_failure :=
       Some (OtherException "PermissionError" "Permission denied: logs") |}.

(** A machine with no handler on the logger and a working file system. *)
Definition fresh_log_system : Logging.LogSystem :=
  {| Logging.logger_level := None; Logging.handlers := [];
     Logging.mkdir_failure := None; Logging.open_failure := None;
     Logging.opened := [] |}.

End Sample2.

(** * Properties *)

(** ** Facts about the text primitives *)

Module TextFacts.
Import Text.

Lemma app_nil (t : string) : EmptyString +:+ t = t.
Proof. reflexivity. Qed.

Lemma app_cons (a : ascii) (s t : string) :
  String a s +:+ t = String a (s +:+ t).
Proof. reflexivity. Qed.

Lemma app_nil_r (s : string) : s +:+ EmptyString = s.
Proof. induction s as [|a s IH]; [done|]. by rewrite app_cons, IH. Qed.

Lemma app_assoc (s t u : string) : (s +:+ t) +:+ u = s +:+ t +:+ u.
Proof. induction s as [|a s IH]; [done|]. by rewrite !app_cons, IH. Qed.

Lemma starts_with_spec (needle hay : string) :
  starts_with needle hay = true ↔ ∃ post, hay = needle +:+ post.
Proof.
  revert hay. induction needle as [|a n IH]; intros hay; simpl.
  - split; [intros _; by exists hay | done].
  - destruct hay as [|b h].
    + split; [done | intros [post Hp]; by rewrite app_cons in Hp].
    + destruct (ascii_dec a b) as [->|Hne].
      * rewrite IH. split; intros [post Hp]; exists post.
        -- by rewrite app_cons, Hp.
        -- rewrite app_cons in Hp. by simplify_eq.
      * split; [done | intros [post Hp]].
        rewrite app_cons in Hp. by simplify_eq.
Qed.

Lemma contains_spec (needle hay : string) :
  contains needle hay = true ↔ substring_of needle hay.
Proof.
  unfold substring_of. induction hay as [|b h IH].
  - simpl. rewrite orb_false_r, starts_with_spec. split.
    + intros [post Hp]. by exists EmptyString, post.
    + intros ([|c pre] & post & Hp); [by exists post|].
      by rewrite app_cons in Hp.
  - cbn [contains]. rewrite orb_true_iff, IH, starts_with_spec. split.
    + intros [[post Hp] | (pre & post & Hp)].
      * by exists EmptyString, post.
      * exists (String b pre), post. by rewrite app_cons, Hp.
    + intros ([|c pre] & post & Hp).
      * left. by exists post.
      * right. rewrite app_cons in Hp. simplify_eq. by exists pre, post.
Qed.

End TextFacts.

(** ** Facts about Unicode text *)

Module UnicodeFacts.
Import Unicode.

Lemma starts_with_prefix (needle hay : ustring) :
  starts_with needle hay = true ↔ ∃ post, hay = (needle ++ post)%list.
Proof.
  revert hay. induction needle as [|a n IH]; intros hay; simpl.
  - split; [intros _; by exists hay | done].
  - destruct hay as [|b h]; [split; [done | by intros [post ?]]|].
    rewrite andb_true_iff, N.eqb_eq, IH. split.
    + intros [-> [post ->]]. by exists post.
    + intros [post [= -> ->]]. split; [done | by exists post].
Qed.

Lemma contains_occurs (needle hay : ustring) :
  contains needle hay = true ↔ occurs needle hay.
Proof.
  unfold occurs. induction hay as [|b h IH].
  - simpl. rewrite orb_false_r, starts_with_prefix. split.
    + intros [post Hp]. by exists [], post.
    + intros ([|c pre] & post & Hp); [by exists post | done].
  - cbn [contains]. rewrite orb_true_iff, IH, starts_with_prefix. split.
    + intros [[post Hp] | (pre & post & Hp)].
      * by exists [], post.
      * exists (b :: pre), post. by rewrite Hp.
    + intros ([|c pre] & post & Hp).
      * left. by exists post.
      * right. injection Hp as -> ->. by exists pre, post.
Qed.

(** The characters of a string are below 256, and [Text.upper_char] is
    [ascii_upper] on them. *)
Lemma ascii_upper_char (c : ascii) :
  ascii_upper (N_of_ascii c) = N_of_ascii (Text.upper_char c).
Proof. by destruct c as [[] [] [] [] [] [] [] []]. Qed.

Lemma upper_char_below (c : ascii) :
  (N_of_ascii (Text.upper_char c) < 128)%N → (N_of_ascii c < 128)%N.
Proof. by destruct c as [[] [] [] [] [] [] [] []]. Qed.

Lemma upper_char_idemp (c : ascii) :
  Text.upper_char (Text.upper_char c) = Text.upper_char c.
Proof. by destruct c as [[] [] [] [] [] [] [] []]. Qed.

Lemma text_upper_idemp (w : string) : Text.upper (Text.upper w) = Text.upper w.
Proof.
  induction w as [|c w IH]; [done|]. simpl. by rewrite upper_char_idemp, IH.
Qed.

(** A word is ASCII when its capitals are. *)
Lemma ascii_only_upper (w : string) :
  ascii_only (Text.upper w) → ascii_only w.
Proof.
  unfold ascii_only. induction w as [|c w IH]; [done|]. simpl.
  intros [Hc Hw]%Forall_cons. apply Forall_cons.
  split; [by apply upper_char_below | by apply IH].
Qed.

Section WithTable.
Context {table : CaseTable}.

Lemma upper_app (s t : ustring) :
  upper (s ++ t)%list = (upper s ++ upper t)%list.
Proof. unfold upper. apply flat_map_app. Qed.

Lemma occurs_upper (needle hay : ustring) :
  occurs needle hay → occurs (upper needle) (upper hay).
Proof.
  intros (pre & post & ->). exists (upper pre), (upper post).
  by rewrite !upper_app.
Qed.

(** On an ASCII word [str.upper] puts the ASCII letters in capitals,
    whatever the rest of the table is. *)
Lemma upper_lit (w : string) :
  ascii_only w → upper (lit w) = lit (Text.upper w).
Proof.
  unfold ascii_only. induction w as [|c w IH]; [done|]. simpl.
  intros [Hc Hw]%Forall_cons. unfold upper in *. simpl.
  rewrite (upper_cp_ascii _ Hc), (IH Hw). simpl.
  by rewrite ascii_upper_char.
Qed.

(** The test of the program for a word in capitals is the search that
    ignores case. *)
Lemma contains_upper (word : string) (hay : ustring) :
  ascii_only word → Text.upper word = word →
  contains (lit word) (upper hay) = true
    ↔ occurs_ignoring_case (lit word) hay.
Proof.
  intros Ha Hu. unfold occurs_ignoring_case.
  by rewrite contains_occurs, (upper_lit _ Ha), Hu.
Qed.

(** Every spelling of a word occurs when case is ignored. *)
Lemma spelling_occurs (word w : string) (hay : ustring) :
  ascii_only word → Text.upper w = word →
  occurs (lit w) hay → occurs_ignoring_case (lit word) hay.
Proof.
  intros Ha Hu Ho. unfold occurs_ignoring_case.
  assert (ascii_only w) as Hw by (apply ascii_only_upper; by rewrite Hu).
  assert (Text.upper word = word) as Hi by (by rewrite <-Hu, text_upper_idemp).
  rewrite (upper_lit _ Ha), Hi, <-Hu, <-(upper_lit _ Hw).
  by apply occurs_upper.
Qed.

End WithTable.

(** The words of the program are ASCII words in capitals. *)
Lemma word_success :
  ascii_only "SUCCESS" ∧ Text.upper "SUCCESS" = "SUCCESS".
Proof. split; [|done]. unfold ascii_only. simpl. by repeat constructor. Qed.

Lemma word_fail : ascii_only "FAIL" ∧ Text.upper "FAIL" = "FAIL".
Proof. split; [|done]. unfold ascii_only. simpl. by repeat constructor. Qed.

End UnicodeFacts.

(** ** Facts about the effect monad *)

Ltac eff_unfold :=
  unfold mbind, mret, Eff_bind, Eff_ret, Eff.bind, Eff.ret, Eff.raise,
    Eff.pure, Eff.try_except, Eff.finally, Eff.modify, Eff.lift in *.

(** ** The session manager *)

Module SessionFacts.
Import Text TextFacts SessionManager.

Lemma accepted_passes (r : response) :
  accepted r → raise_for_status r = Return tt.
Proof.
  unfold accepted, raise_for_status. intros H.
  rewrite !bool_decide_eq_false_2 by lia. done.
Qed.

Lemma passes_accepted (r : response) :
  raise_for_status r = Return tt → accepted r.
Proof.
  unfold accepted, raise_for_status. intros H ?.
  repeat case_bool_decide; try done; lia.
Qed.

(** Two entries of the query parameters of the license call. *)
Lemma license_params_zip (config : Config) :
  _build_license_params config !! "zip" = Some "false".
Proof.
  unfold _build_license_params.
  rewrite !lookup_insert_ne by done. apply lookup_insert_eq.
Qed.

Lemma license_params_custom_id (config : Config) :
  _build_license_params config !! "p_CustomID" = Some (customer_id config).
Proof.
  unfold _build_license_params.
  rewrite !lookup_insert_ne by done. apply lookup_insert_eq.
Qed.

(** The document holds the two configuration values as they are. *)
Lemma login_xml_verbatim (config : Config) :
  substring_of (user_id config) (_build_login_xml config) ∧
  substring_of (user_pass config) (_build_login_xml config).
Proof.
  split.
  - by exists login_xml_head,
      (login_xml_mid +:+ user_pass config +:+ login_xml_tail).
  - exists (login_xml_head +:+ user_id config +:+ login_xml_mid),
      login_xml_tail.
    unfold _build_login_xml. by rewrite !app_assoc.
Qed.

Section WithTable.
Context {table : Unicode.CaseTable}.

(** The result of [login] on an accepted response. *)
Lemma login_answered (config : Config) (n : Net) (r : response) :
  answers n (login_call config) r → accepted r →
  login config n =
    (if Unicode.contains (Unicode.lit "SUCCESS") (Unicode.upper (text r))
     then Return true
     else Raise (AuthenticationError
                   "Login failed: Invalid credentials or response"),
     record_call (login_call config) n).
Proof.
  intros Ha Hok. unfold login, send. eff_unfold. rewrite Ha.
  rewrite (accepted_passes _ Hok).
  by destruct (Unicode.contains _ _).
Qed.

(** The result of [request_license_email] on an accepted response. *)
Lemma license_answered (config : Config) (n : Net) (r : response) :
  answers n (license_call config) r → accepted r →
  request_license_email config n =
    (if Unicode.contains (Unicode.lit "FAIL") (Unicode.upper (text r))
     then Raise (LicenseRequestError "License request failed")
     else if Unicode.contains (Unicode.lit "SUCCESS")
               (Unicode.upper (text r))
     then Return true
     else Raise (LicenseRequestError
                   "License request failed: Unknown response"),
     record_call (license_call config) n).
Proof.
  intros Ha Hok. unfold request_license_email, send. eff_unfold. rewrite Ha.
  rewrite (accepted_passes _ Hok).
  destruct (Unicode.contains (Unicode.lit "FAIL") _); [done|].
  by destruct (Unicode.contains _ _).
Qed.

End WithTable.

End SessionFacts.

(** ** Classification of the response bodies *)

Section Classification.
Import Unicode UnicodeFacts SessionManager SessionFacts.

Context {table : CaseTable}.
Variable config : Config.
Variable n : Net.
Variable r : response.

(** C3: on an accepted response, [login] returns [True] exactly when the
    body has an occurrence of SUCCESS under the comparison that ignores
    case, which is the comparison of the upper-cased texts; for every
    other body (an empty one included) it raises [AuthenticationError].
    In particular every spelling of the word (success, Success, ...) in
    the body makes [login] return [True]. *)
Theorem login_success_iff :
  answers n (login_call config) r → accepted r →
  ((login config n).1 = Return true
     ↔ occurs_ignoring_case (lit "SUCCESS") (text r)) ∧
  (¬ occurs_ignoring_case (lit "SUCCESS") (text r) →
     (login config n).1 =
       Raise (AuthenticationError
                "Login failed: Invalid credentials or response")) ∧
  (text r = [] →
     (login config n).1 =
       Raise (AuthenticationError
                "Login failed: Invalid credentials or response")) ∧
  (∀ w, Text.upper w = "SUCCESS" → occurs (lit w) (text r) →
     (login config n).1 = Return true).
Proof.
  intros Ha Hok.
  assert ((login config n).1 =
            if contains (lit "SUCCESS") (upper (text r)) then Return true
            else Raise (AuthenticationError
                          "Login failed: Invalid credentials or response"))
    as -> by (by rewrite (login_answered _ _ _ Ha Hok)).
  destruct word_success as [Hw Hu].
  assert (∀ w, Text.upper w = "SUCCESS" → occurs (lit w) (text r) →
            contains (lit "SUCCESS") (upper (text r)) = true) as Hsp.
  { intros w Hw' Ho. apply (contains_upper _ _ Hw Hu).
    by apply (spelling_occurs _ w). }
  rewrite <-(contains_upper "SUCCESS" _ Hw Hu).
  destruct (contains (lit "SUCCESS") (upper (text r))) eqn:Hc.
  - split_and!; [by split | done | | done].
    intros Hr. rewrite Hr in Hc. by vm_compute in Hc.
  - split_and!; [by split | done | done |].
    intros w Hw' Ho. by specialize (Hsp w Hw' Ho).
Qed.

(** C1, as amended: on an accepted response, [request_license_email]
    tests the body for FAIL first, then for SUCCESS, both under the
    comparison that ignores case (the comparison of the upper-cased
    texts); FAIL means failure, otherwise SUCCESS means success, otherwise
    the call fails with the unknown-response reason, which differs from
    the reason of the FAIL case.  A body with both words is a failure and
    the empty body is an unknown response. *)
Theorem license_precedence :
  answers n (license_call config) r → accepted r →
  let result := (request_license_email config n).1 in
  (occurs_ignoring_case (lit "FAIL") (text r) →
     result = Raise (LicenseRequestError "License request failed")) ∧
  (¬ occurs_ignoring_case (lit "FAIL") (text r) →
   occurs_ignoring_case (lit "SUCCESS") (text r) →
     result = Return true) ∧
  (¬ occurs_ignoring_case (lit "FAIL") (text r) →
   ¬ occurs_ignoring_case (lit "SUCCESS") (text r) →
     result = Raise (LicenseRequestError
                       "License request failed: Unknown response")) ∧
  (occurs (lit "FAIL") (text r) → occurs (lit "SUCCESS") (text r) →
     result = Raise (LicenseRequestError "License request failed")) ∧
  (text r = [] →
     result = Raise (LicenseRequestError
                       "License request failed: Unknown response")) ∧
  LicenseRequestError "License request failed"
    ≠ LicenseRequestError "License request failed: Unknown response".
Proof.
  intros Ha Hok.
  assert ((request_license_email config n).1 =
            if contains (lit "FAIL") (upper (text r))
            then Raise (LicenseRequestError "License request failed")
            else if contains (lit "SUCCESS") (upper (text r))
            then Return true
            else Raise (LicenseRequestError
                          "License request failed: Unknown response"))
    as -> by (by rewrite (license_answered _ _ _ Ha Hok)).
  cbv zeta.
  destruct word_success as [Hws Hus]. destruct word_fail as [Hwf Huf].
  rewrite <-(contains_upper "FAIL" _ Hwf Huf).
  rewrite <-(contains_upper "SUCCESS" _ Hws Hus).
  split_and!.
  - by intros ->.
  - intros ->%not_true_is_false. by intros ->.
  - by intros ->%not_true_is_false ->%not_true_is_false.
  - intros Hf _. apply (spelling_occurs "FAIL" "FAIL" _ Hwf Huf) in Hf.
    apply (contains_upper "FAIL" _ Hwf Huf) in Hf. by rewrite Hf.
  - intros ->. by vm_compute.
  - done.
Qed.

(** C10: [request_license_email] searches the upper-cased body for FAIL
    and then for SUCCESS, so a body with the lower-case word fail is a
    failure, and a body with the lower-case word success and no
    occurrence of fail in any case is a success. *)
Theorem license_case_insensitive :
  answers n (license_call config) r → accepted r →
  let result := (request_license_email config n).1 in
  result =
    (if contains (lit "FAIL") (upper (text r))
     then Raise (LicenseRequestError "License request failed")
     else if contains (lit "SUCCESS") (upper (text r)) then Return true
     else Raise (LicenseRequestError
                   "License request failed: Unknown response")) ∧
  (occurs (lit "fail") (text r) →
     result = Raise (LicenseRequestError "License request failed")) ∧
  (occurs (lit "success") (text r) →
   ¬ occurs_ignoring_case (lit "FAIL") (text r) →
     result = Return true).
Proof.
  intros Ha Hok.
  assert ((request_license_email config n).1 =
            if contains (lit "FAIL") (upper (text r))
            then Raise (LicenseRequestError "License request failed")
            else if contains (lit "SUCCESS") (upper (text r))
            then Return true
            else Raise (LicenseRequestError
                          "License request failed: Unknown response"))
    as -> by (by rewrite (license_answered _ _ _ Ha Hok)).
  cbv zeta.
  destruct word_success as [Hws Hus]. destruct word_fail as [Hwf Huf].
  split_and!; [done | |].
  - intros Hf%(spelling_occurs "FAIL" "fail" _ Hwf eq_refl).
    apply (contains_upper "FAIL" _ Hwf Huf) in Hf. by rewrite Hf.
  - intros Hs%(spelling_occurs "SUCCESS" "success" _ Hws eq_refl) Hnf.
    rewrite <-(contains_upper "FAIL" _ Hwf Huf) in Hnf.
    apply not_true_is_false in Hnf. rewrite Hnf.
    apply (contains_upper "SUCCESS" _ Hws Hus) in Hs. by rewrite Hs.
Qed.

End Classification.

(** ** The orchestrator *)

Module RequesterFacts.
Import SessionManager Requester.

(** Case analysis on the answer of the transport, on the status check
    and on the class of the exception to handle. *)
Ltac step_cases call :=
  simpl;
  match goal with
  | |- context [remote ?n ?h call] =>
      destruct (remote n h call) as [r|[]]; simpl;
      [destruct (raise_for_status r) as [[]|[]]; simpl|..]
  end;
  repeat match goal with
         | |- context [if ?b then _ else _] => destruct b
         end;
  done.

Section WithTable.
Context {table : Unicode.CaseTable}.

(** Each step makes its one call, whatever its result. *)
Lemma establish_session_calls (config : Config) (n : Net) :
  (establish_session config n).2 = record_call (homepage_call config) n.
Proof.
  unfold establish_session, send. eff_unfold.
  step_cases (homepage_call config).
Qed.

Lemma login_calls (config : Config) (n : Net) :
  (login config n).2 = record_call (login_call config) n.
Proof. unfold login, send. eff_unfold. step_cases (login_call config). Qed.

Lemma request_license_email_calls (config : Config) (n : Net) :
  (request_license_email config n).2 = record_call (license_call config) n.
Proof.
  unfold request_license_email, send. eff_unfold.
  step_cases (license_call config).
Qed.

Lemma failure_summary_text (cat : string) (e : exn) :
  {| logger_name := "NexacroLicenseRequester"; level := ERROR;
     message := failure_summary (failure_details cat e) |}
  = failure_record cat (str e).
Proof.
  unfold failure_record, failure_summary, failure_details, get.
  rewrite lookup_insert_eq, lookup_insert_ne, lookup_insert_eq by done.
  done.
Qed.

(** What one [except] clause does to the world. *)
Lemma report_run (headline cat : string) (e : exn) (w : World) :
  ∃ w', report headline cat e w = (Return false, w') ∧
        net w' = net w ∧
        last (log w') = Some (failure_record cat (str e)).
Proof.
  unfold report, _log_request_summary, logger_error. eff_unfold.
  eexists. split; [done|]. split; [done|]. simpl.
  by rewrite last_snoc, failure_summary_text.
Qed.

(** Whatever the suite of the [try] raises is handled by a clause that
    reports it under its category. *)
Lemma request_license_handled (config : Config) (w w1 : World) (e : exn) :
  workflow config w = (Raise e, w1) →
  ∃ w', request_license config w = (Return false, w') ∧
        net w' = net w1 ∧
        last (log w') = Some (failure_record (category e) (str e)).
Proof.
  intros H. unfold request_license, Eff.try_except. rewrite H.
  destruct e; apply report_run.
Qed.

(** [request_license] returns a boolean, on every world. *)
Lemma request_license_total (config : Config) (w : World) :
  ∃ b w', request_license config w = (Return b, w').
Proof.
  unfold request_license, Eff.try_except.
  destruct (workflow config w) as [[b|e] w1]; [by exists b, w1|].
  exists false.
  destruct e; unfold report, _log_request_summary, logger_error;
    eff_unfold; eauto.
Qed.

(** A failing step ends the suite of the [try] with the exception of the
    step; the session has made the calls of the steps run so far and is
    closed. *)
Lemma workflow_fails_at_session (config : Config) (w : World) e n1 :
  establish_session config (enter (net w)) = (Raise e, n1) →
  ∃ w1, workflow config w = (Raise e, w1) ∧ net w1 = exit n1.
Proof.
  intros H1. unfold workflow, with_session, steps, on_session, logger_info.
  eff_unfold. simpl. rewrite H1. eauto.
Qed.

Lemma workflow_fails_at_login (config : Config) (w : World) c n1 e n2 :
  establish_session config (enter (net w)) = (Return c, n1) →
  login config n1 = (Raise e, n2) →
  ∃ w1, workflow config w = (Raise e, w1) ∧ net w1 = exit n2.
Proof.
  intros H1 H2. unfold workflow, with_session, steps, on_session, logger_info.
  eff_unfold. simpl. rewrite H1. simpl. rewrite H2. eauto.
Qed.

Lemma workflow_fails_at_license (config : Config) (w : World)
    c n1 b n2 e n3 :
  establish_session config (enter (net w)) = (Return c, n1) →
  login config n1 = (Return b, n2) →
  request_license_email config n2 = (Raise e, n3) →
  ∃ w1, workflow config w = (Raise e, w1) ∧ net w1 = exit n3.
Proof.
  intros H1 H2 H3.
  unfold workflow, with_session, steps, on_session, logger_info.
  eff_unfold. simpl. rewrite H1. simpl. rewrite H2. simpl. rewrite H3. eauto.
Qed.

Lemma workflow_succeeds (config : Config) (w : World) c n1 b n2 b' n3 :
  establish_session config (enter (net w)) = (Return c, n1) →
  login config n1 = (Return b, n2) →
  request_license_email config n2 = (Return b', n3) →
  ∃ w1, workflow config w = (Return true, w1) ∧ net w1 = exit n3.
Proof.
  intros H1 H2 H3.
  unfold workflow, with_session, steps, on_session, logger_info,
    _log_request_summary.
  eff_unfold. simpl. rewrite H1. simpl. rewrite H2. simpl. rewrite H3. eauto.
Qed.

(** When the three steps return, [request_license] returns [True] after
    the three calls, in their order. *)
Lemma request_license_succeeds (config : Config) (w : World)
    c n1 b n2 b' n3 :
  establish_session config (enter (net w)) = (Return c, n1) →
  login config n1 = (Return b, n2) →
  request_license_email config n2 = (Return b', n3) →
  ∃ w', request_license config w = (Return true, w') ∧
        calls (net w') =
          (calls (net w)
             ++ [homepage_call config; login_call config;
                 license_call config])%list ∧
        closed (net w') = true.
Proof.
  intros H1 H2 H3.
  destruct (workflow_succeeds _ _ _ _ _ _ _ _ H1 H2 H3) as (w' & Hw & Hn).
  exists w'. unfold request_license, Eff.try_except. rewrite Hw.
  split; [done|]. rewrite Hn.
  pose proof (establish_session_calls config (enter (net w))) as C1.
  pose proof (login_calls config n1) as C2.
  pose proof (request_license_email_calls config n2) as C3.
  rewrite H1 in C1. rewrite H2 in C2. rewrite H3 in C3.
  simpl in C1, C2, C3. subst n1 n2 n3. simpl. by rewrite <-!app_assoc.
Qed.

End WithTable.

End RequesterFacts.

Section Orchestrator.
Import SessionManager Requester SessionFacts RequesterFacts.

Context {table : Unicode.CaseTable}.
Variable config : Config.
Variable w : World.

(** C2: when a step raises, [request_license] returns [False] and the
    calls it has made are those of the steps up to the failing one: a
    failure of [establish_session] leaves the homepage call alone, a
    failure of [login] leaves the homepage call and one login call, with
    no license call, and a failure of [request_license_email] comes after
    all three.  The steps run on the session the [with] statement
    opens. *)
Theorem no_step_after_failure :
  (∀ e n1,
     establish_session config (enter (net w)) = (Raise e, n1) →
     ∃ w', request_license config w = (Return false, w') ∧
           calls (net w') = (calls (net w) ++ [homepage_call config])%list) ∧
  (∀ cookies n1 e n2,
     establish_session config (enter (net w)) = (Return cookies, n1) →
     login config n1 = (Raise e, n2) →
     ∃ w', request_license config w = (Return false, w') ∧
           calls (net w') =
             (calls (net w)
                ++ [homepage_call config; login_call config])%list ∧
           license_call config ∉ [homepage_call config; login_call config]) ∧
  (∀ cookies n1 b n2 e n3,
     establish_session config (enter (net w)) = (Return cookies, n1) →
     login config n1 = (Return b, n2) →
     request_license_email config n2 = (Raise e, n3) →
     ∃ w', request_license config w = (Return false, w') ∧
           calls (net w') =
             (calls (net w)
                ++ [homepage_call config; login_call config;
                    license_call config])%list).
Proof.
  split_and!.
  - intros e n1 H1.
    destruct (workflow_fails_at_session _ _ _ _ H1) as (w1 & Hw & Hn).
    destruct (request_license_handled _ _ _ _ Hw) as (w' & Hr & Hn' & _).
    exists w'. split; [done|]. rewrite Hn', Hn.
    pose proof (establish_session_calls config (enter (net w))) as C1.
    rewrite H1 in C1. simpl in C1. by subst n1.
  - intros c n1 e n2 H1 H2.
    destruct (workflow_fails_at_login _ _ _ _ _ _ H1 H2) as (w1 & Hw & Hn).
    destruct (request_license_handled _ _ _ _ Hw) as (w' & Hr & Hn' & _).
    exists w'. split; [done|]. split.
    + rewrite Hn', Hn.
      pose proof (establish_session_calls config (enter (net w))) as C1.
      pose proof (login_calls config n1) as C2.
      rewrite H1 in C1. rewrite H2 in C2. simpl in C1, C2. subst n1 n2.
      simpl. by rewrite <-app_assoc.
    + intros [Hh|[Hl|[]%elem_of_nil]%elem_of_cons]%elem_of_cons.
      * apply (f_equal params) in Hh. simpl in Hh.
        pose proof (license_params_zip config) as Hz.
        by rewrite Hh in Hz.
      * by apply (f_equal meth) in Hl.
  - intros c n1 b n2 e n3 H1 H2 H3.
    destruct (workflow_fails_at_license _ _ _ _ _ _ _ _ H1 H2 H3)
      as (w1 & Hw & Hn).
    destruct (request_license_handled _ _ _ _ Hw) as (w' & Hr & Hn' & _).
    exists w'. split; [done|]. rewrite Hn', Hn.
    pose proof (establish_session_calls config (enter (net w))) as C1.
    pose proof (login_calls config n1) as C2.
    pose proof (request_license_email_calls config n2) as C3.
    rewrite H1 in C1. rewrite H2 in C2. rewrite H3 in C3.
    simpl in C1, C2, C3. subst n1 n2 n3. simpl. by rewrite <-!app_assoc.
Qed.

(** C4: [request_license] always returns a boolean.  When the suite of
    its [try] raises, it returns [False] and the last record it logs is
    the failure summary: with the category of the class and the message
    for [NetworkError], [AuthenticationError] and [LicenseRequestError],
    and with the category of unexpected errors and the message for an
    exception of any other class. *)
Theorem request_license_catches_every_exception :
  (∃ b w', request_license config w = (Return b, w')) ∧
  (∀ m w1, workflow config w = (Raise (NetworkError m), w1) →
     ∃ w', request_license config w = (Return false, w') ∧
           last (log w') = Some (failure_record "Network error" m)) ∧
  (∀ m w1, workflow config w = (Raise (AuthenticationError m), w1) →
     ∃ w', request_license config w = (Return false, w') ∧
           last (log w') = Some (failure_record "Authentication failed" m)) ∧
  (∀ m w1, workflow config w = (Raise (LicenseRequestError m), w1) →
     ∃ w', request_license config w = (Return false, w') ∧
           last (log w') = Some (failure_record "License request failed" m)) ∧
  (∀ e w1, workflow config w = (Raise e, w1) → ¬ named_class e →
     ∃ w', request_license config w = (Return false, w') ∧
           last (log w') = Some (failure_record "Unexpected error" (str e))).
Proof.
  split_and!.
  - apply request_license_total.
  - intros m w1 Hw.
    destruct (request_license_handled _ _ _ _ Hw) as (w' & Hr & _ & Hl).
    by exists w'.
  - intros m w1 Hw.
    destruct (request_license_handled _ _ _ _ Hw) as (w' & Hr & _ & Hl).
    by exists w'.
  - intros m w1 Hw.
    destruct (request_license_handled _ _ _ _ Hw) as (w' & Hr & _ & Hl).
    by exists w'.
  - intros e w1 Hw Hn.
    destruct (request_license_handled _ _ _ _ Hw) as (w' & Hr & _ & Hl).
    exists w'. split; [done|]. by destruct e.
Qed.

End Orchestrator.

(** ** Configuration *)

Module ConfigFacts.
Import Text TextFacts Cfg.

Lemma join_contains (sep v : string) (names : list string) :
  v ∈ names → substring_of v (join sep names).
Proof.
  induction names as [|p rest IH]; [by intros ?%elem_of_nil|].
  intros [->|Hin]%elem_of_cons.
  - destruct rest as [|q rest'].
    + exists EmptyString, EmptyString. simpl.
      by rewrite app_nil, app_nil_r.
    + exists EmptyString, (sep +:+ join sep (q :: rest')). done.
  - destruct (IH Hin) as (pre & post & Hj).
    destruct rest as [|q rest']; [by apply elem_of_nil in Hin|].
    exists (p +:+ sep +:+ pre), post.
    change (join sep (p :: q :: rest'))
      with (p +:+ sep +:+ join sep (q :: rest')).
    by rewrite Hj, !app_assoc.
Qed.

Lemma missing_message_contains (v : string) (names : list string) :
  v ∈ names → substring_of v (missing_message names).
Proof.
  intros (pre & post & Hj)%(join_contains ", ").
  exists ("Missing required environment variables: " +:+ pre), post.
  unfold missing_message. by rewrite Hj, !app_assoc.
Qed.

Lemma elem_of_missing (env : gmap string string) (v : string) :
  v ∈ missing env ↔ truthy (getenv env v) = false ∧ v ∈ required_vars.
Proof.
  unfold missing.
  apply (list_elem_of_filter (λ var, truthy (getenv env var) = false)).
Qed.

(** When a name is missing, [from_env] raises with the message built
    from all the missing names. *)
Lemma from_env_missing (env : gmap string string) (v : string) :
  v ∈ missing env →
  from_env env = Raise (ValueError (missing_message (missing env))).
Proof.
  unfold from_env. by destruct (missing env); [intros ?%elem_of_nil|].
Qed.

Lemma missing_nil (env : gmap string string) :
  (∀ v, v ∈ required_vars → truthy (getenv env v) = true) →
  missing env = [].
Proof.
  intros H. destruct (missing env) as [|v l] eqn:Hm; [done|].
  assert (v ∈ missing env) as [Hf Hv]%elem_of_missing
    by (rewrite Hm; apply list_elem_of_here).
  rewrite (H v Hv) in Hf. done.
Qed.

End ConfigFacts.

Section Configuration.
Import Text TextFacts Cfg ConfigFacts SessionManager SessionFacts.

Context {table : Unicode.CaseTable}.

(** C5, as amended: when required variables are absent, [from_env]
    raises its configuration error ([ValueError]) and the message has the
    name of every absent variable in it; [from_env] succeeds when the
    three variables are present and none of them is the empty string. *)
Theorem from_env_names_every_missing (env : gmap string string) :
  ((∃ v, v ∈ required_vars ∧ env !! v = None) →
     ∃ msg, from_env env = Raise (ValueError msg) ∧
            ∀ v, v ∈ required_vars → env !! v = None → substring_of v msg) ∧
  (∀ uid upass mail,
     env !! "NEXACRO_USER_ID" = Some uid → uid ≠ EmptyString →
     env !! "NEXACRO_USER_PASS" = Some upass → upass ≠ EmptyString →
     env !! "NEXACRO_EMAIL" = Some mail → mail ≠ EmptyString →
     from_env env = Return (make uid upass uid mail)).
Proof.
  split.
  - intros (v0 & Hv0 & Hn0).
    assert (∀ v, v ∈ required_vars → env !! v = None → v ∈ missing env)
      as Hin.
    { intros v Hv Hn. apply elem_of_missing. split; [|done].
      unfold getenv. by rewrite Hn. }
    exists (missing_message (missing env)). split.
    + apply (from_env_missing env v0). by apply Hin.
    + intros v Hv Hn. apply missing_message_contains. by apply Hin.
  - intros uid upass mail Hu Hune Hp Hpne Hm Hmne.
    unfold from_env. rewrite missing_nil.
    + unfold environ_item. by rewrite Hu, Hp, Hm.
    + intros v Hv. unfold required_vars in Hv. unfold getenv.
      apply elem_of_cons in Hv as [Hv|Hv];
        [subst v; rewrite Hu; by destruct uid|].
      apply elem_of_cons in Hv as [Hv|Hv];
        [subst v; rewrite Hp; by destruct upass|].
      apply elem_of_cons in Hv as [Hv|Hv];
        [subst v; rewrite Hm; by destruct mail|].
      by apply elem_of_nil in Hv.
Qed.

(** C9: a required variable that is set to the empty string counts as
    missing: [from_env] gives the same result as when the variable is
    absent, and that result is the error whose message has the name of
    the variable in it. *)
Theorem from_env_empty_is_absent (env : gmap string string) (v : string) :
  v ∈ required_vars → env !! v = Some EmptyString →
  from_env env = from_env (delete v env) ∧
  ∃ msg, from_env env = Raise (ValueError msg) ∧ substring_of v msg.
Proof.
  intros Hv He.
  assert (v ∈ missing env) as Hin.
  { apply elem_of_missing. split; [|done]. unfold getenv. by rewrite He. }
  assert (missing (delete v env) = missing env) as Hsame.
  { unfold missing. apply list_filter_iff. intros x. unfold getenv.
    destruct (decide (x = v)) as [->|Hne].
    - by rewrite lookup_delete_eq, He.
    - by rewrite lookup_delete_ne. }
  split.
  - rewrite (from_env_missing env v Hin).
    rewrite (from_env_missing (delete v env) v); by rewrite Hsame.
  - exists (missing_message (missing env)). split.
    + by apply (from_env_missing env v).
    + by apply missing_message_contains.
Qed.

(** C7: a configuration loaded by [from_env] has the user id of the
    environment as its customer id, and the license call carries that value
    as its p_CustomID parameter. *)
Theorem customer_id_is_user_id (env : gmap string string) (config : Config) :
  from_env env = Return config →
  customer_id config = user_id config ∧
  env !! "NEXACRO_USER_ID" = Some (user_id config) ∧
  _build_license_params config !! "p_CustomID" = Some (user_id config) ∧
  ∀ n, ∃ c,
    calls (request_license_email config n).2 = (calls n ++ [c])%list ∧
    meth c = GET ∧ url c = license_url config ∧
    params c !! "p_CustomID" = Some (user_id config).
Proof.
  intros H.
  assert (customer_id config = user_id config
          ∧ env !! "NEXACRO_USER_ID" = Some (user_id config)) as [Hc Hu].
  { unfold from_env, environ_item in H.
    destruct (missing env); [|done].
    destruct (env !! "NEXACRO_USER_ID") as [uid|]; [|done].
    destruct (env !! "NEXACRO_USER_PASS") as [upass|]; [|done].
    destruct (env !! "NEXACRO_EMAIL") as [mail|]; [|done].
    by injection H as <-. }
  split_and!; [done | done | |].
  - by rewrite license_params_custom_id, Hc.
  - intros n. exists (license_call config).
    rewrite RequesterFacts.request_license_email_calls. simpl.
    split_and!; [done..|]. by rewrite license_params_custom_id, Hc.
Qed.

End Configuration.

Section EntryPoint.
Import Cfg Requester RequesterFacts.

Context {table : Unicode.CaseTable}.
Variable env : gmap string string.
Variable w : World.

(** One way through [main]: the exit code is known, and each part of
    the statement follows from the equations of the case. *)
Local Ltac exit_case :=
  eexists _, _; split; [reflexivity|];
  split_and!;
  [ auto
  | split;
    [ intros; simplify_eq; eauto 10
    | intros (? & ? & ? & ? & ? & ?); simplify_eq; congruence ]
  | intros; simplify_eq/=;
    try match goal with
        | Heq : ?x = _, H : raises ?x |- _ => rewrite Heq in H
        end;
    first [done | congruence] .. ].

(** C8: [main] returns an exit code, which is 0 or 1.  It is 0 exactly
    when the configuration loads and validates, the requester is set up
    and [request_license] reports success; it is 1 when [from_env] or
    [validate] raises, when the set-up of the requester raises, and when
    [request_license] reports failure. *)
Theorem main_exit_code :
  ∃ code w', main env w = (Return code, w') ∧
    (code = 0 ∨ code = 1)%Z ∧
    (code = 0%Z ↔
       ∃ config w2, from_env env = Return config ∧
                    validate config = Return tt ∧
                    log_setup_failure w = None ∧
                    request_license config w = (Return true, w2)) ∧
    (raises (from_env env) → code = 1%Z) ∧
    (∀ config, from_env env = Return config →
               raises (validate config) → code = 1%Z) ∧
    (∀ config e, from_env env = Return config →
                 validate config = Return tt →
                 log_setup_failure w = Some e → code = 1%Z) ∧
    (∀ config w2, from_env env = Return config →
                  validate config = Return tt →
                  log_setup_failure w = None →
                  request_license config w = (Return false, w2) →
                  code = 1%Z).
Proof.
  unfold main, init, logging_error. eff_unfold.
  destruct (from_env env) as [config|e] eqn:Hf.
  2: { destruct e; exit_case. }
  destruct (validate config) as [[]|e] eqn:Hv.
  2: { destruct e; exit_case. }
  destruct (log_setup_failure w) as [e|] eqn:Hs.
  { destruct e; exit_case. }
  destruct (request_license_total config w) as (b & w2 & Hr). rewrite Hr.
  destruct b; exit_case.
Qed.

End EntryPoint.

(** ** The login document *)

Section LoginDocument.
Import Text SessionManager.

(** C6 (the code inserts the values as they are): for a password with an
    ampersand and angle brackets, the document built by
    [_build_login_xml] has the password between the tags of its element
    unchanged, which is not character data, and differs from the document
    with the escaped values. *)
Theorem login_xml_inserts_raw_credentials :
  _build_login_xml Sample.config_special =
    login_xml_head +:+ "test_user" +:+ login_xml_mid
      +:+ "R&D<1>" +:+ login_xml_tail ∧
  chardata "R&D<1>" = false ∧
  xml_escape "R&D<1>" = "R&amp;D&lt;1&gt;" ∧
  _build_login_xml Sample.config_special ≠
    login_xml_head +:+ xml_escape "test_user" +:+ login_xml_mid
      +:+ xml_escape "R&D<1>" +:+ login_xml_tail.
Proof.
  split_and!; [done | done | done |].
  intros H. apply (f_equal (contains "&amp;")) in H.
  vm_compute in H. discriminate.
Qed.

End LoginDocument.

(** ** The statements at sample inputs *)

Section Samples.
Import Text Cfg SessionManager Requester.

(** The runs of this section are computed with the table that has the
    capitals of the ASCII letters and nothing else; their bodies are
    ASCII, where every table agrees with it. *)
#[local] Existing Instance Unicode.ascii_table.

Lemma accepted_ok (body : string) : accepted (Sample.ok_response body).
Proof. unfold accepted. simpl. lia. Defined.

(** [login] on a body with the word in mixed case. *)
Lemma login_success_iff_witness :
  answers (Sample.echo "Login Success") (login_call Sample.config)
    (Sample.ok_response "Login Success") ∧
  accepted (Sample.ok_response "Login Success") ∧
  (login Sample.config (Sample.echo "Login Success")).1 = Return true.
Proof.
  split; [reflexivity|]. split; [apply accepted_ok|].
  apply (proj1 (login_success_iff Sample.config
                  (Sample.echo "Login Success")
                  (Sample.ok_response "Login Success")
                  eq_refl (accepted_ok _))).
  exists (Unicode.lit "LOGIN "), []. reflexivity.
Defined.

(** [request_license_email] on a body with both words. *)
Lemma license_precedence_witness :
  answers (Sample.echo "SUCCESS or FAIL") (license_call Sample.config)
    (Sample.ok_response "SUCCESS or FAIL") ∧
  accepted (Sample.ok_response "SUCCESS or FAIL") ∧
  (request_license_email Sample.config (Sample.echo "SUCCESS or FAIL")).1
    = Raise (LicenseRequestError "License request failed").
Proof.
  split; [reflexivity|]. split; [apply accepted_ok|].
  apply (proj1 (license_precedence Sample.config
                  (Sample.echo "SUCCESS or FAIL")
                  (Sample.ok_response "SUCCESS or FAIL")
                  eq_refl (accepted_ok _))).
  exists (Unicode.lit "SUCCESS OR "), []. reflexivity.
Defined.

(** C1 as it is worded does not hold: this body has neither FAIL nor
    SUCCESS in it, and [request_license_email] returns [True] on it. *)
Lemma license_literal_reading_fails :
  Unicode.contains (Unicode.lit "FAIL")
    (text (Sample.ok_response "<Result>success</Result>")) = false ∧
  Unicode.contains (Unicode.lit "SUCCESS")
    (text (Sample.ok_response "<Result>success</Result>")) = false ∧
  accepted (Sample.ok_response "<Result>success</Result>") ∧
  ∀ table : Unicode.CaseTable,
    (@request_license_email table Sample.config
       (Sample.echo "<Result>success</Result>")).1 = Return true.
Proof.
  split_and!; [reflexivity | reflexivity | apply accepted_ok |].
  intros table.
  rewrite (SessionFacts.license_answered Sample.config
             (Sample.echo "<Result>success</Result>")
             (Sample.ok_response "<Result>success</Result>")
             eq_refl (accepted_ok _)).
  change (text (Sample.ok_response "<Result>success</Result>"))
    with (Unicode.lit "<Result>success</Result>").
  rewrite UnicodeFacts.upper_lit by (by vm_compute; repeat constructor).
  reflexivity.
Qed.

(** [request_license_email] on a body with the lower-case word fail. *)
Lemma license_case_insensitive_witness :
  answers (Sample.echo "request fail") (license_call Sample.config)
    (Sample.ok_response "request fail") ∧
  accepted (Sample.ok_response "request fail") ∧
  (request_license_email Sample.config (Sample.echo "request fail")).1
    = Raise (LicenseRequestError "License request failed").
Proof.
  split; [reflexivity|]. split; [apply accepted_ok|].
  apply (proj1 (proj2 (license_case_insensitive Sample.config
                         (Sample.echo "request fail")
                         (Sample.ok_response "request fail")
                         eq_refl (accepted_ok _)))).
  exists (Unicode.lit "request "), []. reflexivity.
Defined.

(** A rejected login: two calls, and no license call. *)
Lemma no_step_after_failure_witness :
  ∃ w', request_license Sample.config Sample.world_login_rejected
          = (Return false, w') ∧
        calls (net w') =
          [homepage_call Sample.config; login_call Sample.config] ∧
        license_call Sample.config
          ∉ [homepage_call Sample.config; login_call Sample.config].
Proof.
  eapply (proj1 (proj2 (no_step_after_failure Sample.config
                          Sample.world_login_rejected))); reflexivity.
Defined.

(** An exception of an unknown class at the first call. *)
Lemma request_license_catches_every_exception_witness :
  ∃ w', request_license Sample.config Sample.world_unreachable
          = (Return false, w') ∧
        last (log w') =
          Some (failure_record "Unexpected error" "Connection refused").
Proof.
  eapply (proj2 (proj2 (proj2 (proj2
            (request_license_catches_every_exception Sample.config
               Sample.world_unreachable))))
            (OtherException "Exception" "Connection refused"));
    [reflexivity | exact (λ H : False, H)].
Defined.

(** An environment with the user id alone: both other names are in the
    message; and the sample environment, which loads. *)
Lemma from_env_names_every_missing_witness :
  (∃ msg, from_env Sample.env_id_only = Raise (ValueError msg) ∧
          substring_of "NEXACRO_USER_PASS" msg ∧
          substring_of "NEXACRO_EMAIL" msg) ∧
  from_env Sample.env = Return Sample.config.
Proof.
  split.
  - destruct (proj1 (from_env_names_every_missing Sample.env_id_only))
      as (msg & Hr & Hall).
    + exists "NEXACRO_EMAIL". split; [|reflexivity].
      do 2 apply list_elem_of_further. apply list_elem_of_here.
    + exists msg. split; [exact Hr|]. split; apply Hall; try reflexivity.
      * apply list_elem_of_further, list_elem_of_here.
      * do 2 apply list_elem_of_further. apply list_elem_of_here.
  - apply (proj2 (from_env_names_every_missing Sample.env)
             "test_user" "test_pass" "test@example.com");
      first [reflexivity | discriminate].
Defined.

(** C5 as it is worded does not hold: the three variables are present
    in this environment and [from_env] raises. *)
Lemma from_env_present_but_empty :
  is_Some (Sample.env_blank_id !! "NEXACRO_USER_ID") ∧
  is_Some (Sample.env_blank_id !! "NEXACRO_USER_PASS") ∧
  is_Some (Sample.env_blank_id !! "NEXACRO_EMAIL") ∧
  from_env Sample.env_blank_id =
    Raise (ValueError
             "Missing required environment variables: NEXACRO_USER_ID").
Proof. split_and!; [by eexists..|reflexivity]. Qed.

(** The user id set to the empty string. *)
Lemma from_env_empty_is_absent_witness :
  "NEXACRO_USER_ID" ∈ required_vars ∧
  Sample.env_blank_id !! "NEXACRO_USER_ID" = Some EmptyString ∧
  from_env Sample.env_blank_id
    = from_env (delete "NEXACRO_USER_ID" Sample.env_blank_id).
Proof.
  assert ("NEXACRO_USER_ID" ∈ required_vars) as Hv
    by apply list_elem_of_here.
  split; [exact Hv|]. split; [reflexivity|].
  apply (from_env_empty_is_absent Sample.env_blank_id "NEXACRO_USER_ID" Hv).
  reflexivity.
Defined.

(** The sample environment loads into the sample configuration. *)
Lemma customer_id_is_user_id_witness :
  from_env Sample.env = Return Sample.config ∧
  customer_id Sample.config = user_id Sample.config ∧
  _build_license_params Sample.config !! "p_CustomID" = Some "test_user".
Proof.
  assert (from_env Sample.env = Return Sample.config) as H by reflexivity.
  split; [exact H|].
  destruct (customer_id_is_user_id Sample.env Sample.config H)
    as (Hc & _ & Hp & _).
  split; [exact Hc | exact Hp].
Defined.

(** Three runs of [main]. *)
Example main_success :
  (main Sample.env Sample.world_ok).1 = Return 0%Z.
Proof. reflexivity. Qed.

Example main_login_rejected :
  (main Sample.env Sample.world_login_rejected).1 = Return 1%Z.
Proof. reflexivity. Qed.

Example main_missing_variables :
  (main Sample.env_id_only Sample.world_ok).1 = Return 1%Z ∧
  calls (net (main Sample.env_id_only Sample.world_ok).2) = [].
Proof. split; reflexivity. Qed.

End Samples.

(** * Further properties of the code *)

(** ** Configuration *)

Module ConfigMore.
Import Text TextFacts Cfg ConfigFacts.

Lemma truthy_true (v : option string) :
  truthy v = true ↔ ∃ s, v = Some s ∧ s ≠ EmptyString.
Proof.
  destruct v as [[|a s]|]; simpl; split;
    [done | by intros (? & [= <-] & ?) | by eexists | done
    | done | by intros (? & [=] & ?)].
Qed.

Lemma truthy_false (v : option string) :
  truthy v = false ↔ v = None ∨ v = Some EmptyString.
Proof.
  destruct v as [[|a s]|]; simpl; split; auto; try done.
  by intros [|].
Qed.

(** With nothing missing, each required variable has a value that is not
    the empty string. *)
Lemma missing_nil_inv (env : gmap string string) (v : string) :
  missing env = [] → v ∈ required_vars →
  ∃ s, env !! v = Some s ∧ s ≠ EmptyString.
Proof.
  intros Hm Hv. apply truthy_true.
  destruct (truthy (env !! v)) eqn:Ht; [done|].
  assert (v ∈ missing env) as Hin by (by apply elem_of_missing).
  rewrite Hm in Hin. by apply elem_of_nil in Hin.
Qed.

(** What a successful [from_env] has read. *)
Lemma from_env_return_inv (env : gmap string string) (config : Config) :
  from_env env = Return config →
  ∃ uid upass mail,
    env !! "NEXACRO_USER_ID" = Some uid ∧ uid ≠ EmptyString ∧
    env !! "NEXACRO_USER_PASS" = Some upass ∧ upass ≠ EmptyString ∧
    env !! "NEXACRO_EMAIL" = Some mail ∧ mail ≠ EmptyString ∧
    config = make uid upass uid mail.
Proof.
  unfold from_env. destruct (missing env) as [|m l] eqn:Hm; [|done].
  destruct (missing_nil_inv env "NEXACRO_USER_ID" Hm) as (uid & Hu & ?);
    [apply list_elem_of_here|].
  destruct (missing_nil_inv env "NEXACRO_USER_PASS" Hm) as (upass & Hp & ?);
    [apply list_elem_of_further, list_elem_of_here|].
  destruct (missing_nil_inv env "NEXACRO_EMAIL" Hm) as (mail & He & ?);
    [do 2 apply list_elem_of_further; apply list_elem_of_here|].
  unfold environ_item. rewrite Hu, Hp, He. intros [= <-].
  by exists uid, upass, mail.
Qed.

(** [from_env] returns or raises [ValueError]. *)
Lemma from_env_cases (env : gmap string string) :
  (∃ config, from_env env = Return config) ∨
  (∃ v, v ∈ missing env ∧
        from_env env = Raise (ValueError (missing_message (missing env)))).
Proof.
  destruct (missing env) as [|m l] eqn:Hm.
  - left.
    destruct (missing_nil_inv env "NEXACRO_USER_ID" Hm) as (uid & Hu & ?);
      [apply list_elem_of_here|].
    destruct (missing_nil_inv env "NEXACRO_USER_PASS" Hm) as (upass & Hp & ?);
      [apply list_elem_of_further, list_elem_of_here|].
    destruct (missing_nil_inv env "NEXACRO_EMAIL" Hm) as (mail & He & ?);
      [do 2 apply list_elem_of_further; apply list_elem_of_here|].
    exists (make uid upass uid mail).
    unfold from_env, environ_item. by rewrite Hm, Hu, Hp, He.
  - right. exists m. split; [apply list_elem_of_here|].
    unfold from_env. by rewrite Hm.
Qed.

(** [from_env] on an environment with the three variables set to
    something. *)
Lemma from_env_loads (env : gmap string string) (uid upass mail : string) :
  env !! "NEXACRO_USER_ID" = Some uid → uid ≠ EmptyString →
  env !! "NEXACRO_USER_PASS" = Some upass → upass ≠ EmptyString →
  env !! "NEXACRO_EMAIL" = Some mail → mail ≠ EmptyString →
  from_env env = Return (make uid upass uid mail).
Proof.
  intros Hu ? Hp ? He ?.
  destruct (from_env_cases env) as [(c & Hc)|(v & Hv & _)].
  - rewrite Hc. f_equal.
    apply from_env_return_inv in Hc
      as (u' & p' & m' & Hu' & _ & Hp' & _ & He' & _ & ->).
    congruence.
  - apply elem_of_missing in Hv as [Hf Hv]. unfold getenv in Hf.
    apply truthy_false in Hf.
    apply elem_of_cons in Hv as [->|Hv]; [destruct Hf; congruence|].
    apply elem_of_cons in Hv as [->|Hv]; [destruct Hf; congruence|].
    apply elem_of_cons in Hv as [->|Hv]; [destruct Hf; congruence|].
    by apply elem_of_nil in Hv.
Qed.

(** [validate] returns or raises [ValueError]. *)
Lemma validate_cases (config : Config) :
  validate config = Return tt ∨
  validate config
    = Raise (ValueError ("Invalid email format: " +:+ email config)).
Proof. unfold validate. destruct (_ || _); auto. Qed.

(** The message for a list of missing names holds no other required
    name. *)
Lemma message_names_only_missing (env : gmap string string) (v : string) :
  v ∈ required_vars → v ∉ missing env →
  ¬ substring_of v (missing_message (missing env)).
Proof.
  intros Hv Hnot Hsub. apply contains_spec in Hsub.
  unfold missing, required_vars in *.
  rewrite !filter_cons, filter_nil in *.
  apply elem_of_cons in Hv as [->|Hv];
    [|apply elem_of_cons in Hv as [->|Hv];
      [|apply elem_of_cons in Hv as [->|Hv];
        [|by apply elem_of_nil in Hv]]];
    repeat case_decide; set_unfold; try naive_solver;
    by vm_compute in Hsub.
Qed.

End ConfigMore.

Section ConfigurationMore.
Import Text TextFacts Cfg ConfigFacts ConfigMore.

(** X1: [validate] accepts exactly the configurations whose email address
    has an at sign in it; for every other one, the empty address included,
    it raises [ValueError] with the address in the message. *)
Theorem validate_accepts_iff (config : Config) :
  (validate config = Return tt ↔ substring_of "@" (email config)) ∧
  (¬ substring_of "@" (email config) →
     validate config
       = Raise (ValueError ("Invalid email format: " +:+ email config))) ∧
  (email config = EmptyString → raises (validate config)).
Proof.
  unfold validate. rewrite <-contains_spec.
  destruct (email config) as [|a s] eqn:He.
  - split_and!; [by split | done | done].
  - change (String.eqb (String a s) EmptyString) with false.
    rewrite orb_false_l.
    destruct (contains "@" (String a s)); split_and!; try done; by split.
Qed.

(** X2: [from_env] never raises anything but [ValueError]: reading the
    three variables from [os.environ] after the check cannot fail. *)
Theorem from_env_raises_only_value_error (env : gmap string string) :
  (∃ config, from_env env = Return config) ∨
  (∃ msg, from_env env = Raise (ValueError msg)).
Proof.
  destruct (from_env_cases env) as [?|(v & _ & ->)]; [by left|].
  right. by eexists.
Qed.

(** X3: the message of the error of [from_env] names exactly the missing
    variables: a required name occurs in it if and only if the variable is
    unset or set to the empty string. *)
Theorem from_env_message_names_exactly_missing
    (env : gmap string string) (msg v : string) :
  from_env env = Raise (ValueError msg) → v ∈ required_vars →
  (substring_of v msg ↔ env !! v = None ∨ env !! v = Some EmptyString).
Proof.
  intros Hr Hv. rewrite <-truthy_false.
  destruct (from_env_cases env) as [(c & Hc)|(v0 & _ & Hm)];
    [by rewrite Hc in Hr|].
  rewrite Hm in Hr. injection Hr as <-. split.
  - intros Hsub. destruct (truthy (env !! v)) eqn:Ht; [|done].
    exfalso. apply (message_names_only_missing env v Hv); [|done].
    intros [Hf _]%elem_of_missing. unfold getenv in Hf. congruence.
  - intros Ht. apply missing_message_contains, elem_of_missing. by split.
Qed.

(** X4: a configuration that [from_env] returns has the values of the
    three variables, none of them empty, the user id as customer id, and
    the default addresses, timeout and retry count. *)
Theorem from_env_loaded_fields (env : gmap string string) (config : Config) :
  from_env env = Return config →
  env !! "NEXACRO_USER_ID" = Some (user_id config) ∧
  env !! "NEXACRO_USER_PASS" = Some (user_pass config) ∧
  env !! "NEXACRO_EMAIL" = Some (email config) ∧
  user_id config ≠ EmptyString ∧ user_pass config ≠ EmptyString ∧
  email config ≠ EmptyString ∧
  config = make (user_id config) (user_pass config) (user_id config)
             (email config) ∧
  request_timeout config = 30%Z ∧ max_retries config = 3%Z.
Proof.
  intros (uid & upass & mail & Hu & ? & Hp & ? & He & ? & ->)
    %from_env_return_inv.
  by split_and!.
Qed.

End ConfigurationMore.

(** ** The session manager *)

Module SessionMore.
Import Text TextFacts SessionManager SessionFacts.

(** [raise_for_status] on a status code of the error range. *)
Lemma error_status_raises (r : response) :
  (400 ≤ status_code r < 600)%Z →
  ∃ m, raise_for_status r = Raise (HTTPError m).
Proof.
  intros H. unfold raise_for_status.
  destruct (bool_decide (400 ≤ status_code r < 500)%Z) eqn:H4; [by eexists|].
  apply bool_decide_eq_false in H4.
  rewrite bool_decide_eq_true_2 by lia. by eexists.
Qed.




(** The result of [establish_session] on an accepted response. *)
Lemma establish_session_answered (config : Config) (n : Net) (r : response) :
  answers n (homepage_call config) r → accepted r →
  establish_session config n =
    (Return (dict (cookies r)), record_call (homepage_call config) n).
Proof.
  intros Ha Hok. unfold establish_session, send. eff_unfold. rewrite Ha.
  by rewrite (accepted_passes _ Hok).
Qed.

End SessionMore.

Section SessionManagerMore.
Import Text TextFacts SessionManager SessionFacts SessionMore RequesterFacts.

Context {table : Unicode.CaseTable}.
Variable config : Config.
Variable n : Net.



(** X6: each step makes exactly one call, its own, after the calls made
    before it, whether it returns or raises: no step repeats a call; and
    no step closes the session.  (The statement is about the calls and
    about the session being open: what the session keeps between calls,
    its cookies among it, is not part of it.) *)
Theorem each_step_sends_one_request :
  (calls (establish_session config n).2
     = (calls n ++ [homepage_call config])%list ∧
   closed (establish_session config n).2 = closed n) ∧
  (calls (login config n).2 = (calls n ++ [login_call config])%list ∧
   closed (login config n).2 = closed n) ∧
  (calls (request_license_email config n).2
     = (calls n ++ [license_call config])%list ∧
   closed (request_license_email config n).2 = closed n).
Proof.
  rewrite establish_session_calls, login_calls, request_license_email_calls.
  done.
Qed.

(** X7: a response with a status code from 400 to 599 makes each step
    raise [NetworkError] with the text of the HTTP error, whatever the
    body says: the body is looked at only after the status. *)
Theorem error_status_is_network_error (r : response) :
  (400 ≤ status_code r < 600)%Z →
  (answers n (homepage_call config) r →
     ∃ m, (establish_session config n).1
            = Raise (NetworkError ("HTTP error: " +:+ m))) ∧
  (answers n (login_call config) r →
     ∃ m, (login config n).1
            = Raise (NetworkError ("HTTP error during login: " +:+ m))) ∧
  (answers n (license_call config) r →
     ∃ m, (request_license_email config n).1
            = Raise (NetworkError
                       ("HTTP error during license request: " +:+ m))).
Proof.
  intros Hs. split_and!; intros Ha.
  - destruct (error_status_raises r Hs) as [m Hm].
    exists m. unfold establish_session, send. eff_unfold.
    by rewrite Ha, Hm.
  - destruct (error_status_raises r Hs) as [m Hm].
    exists m. unfold login, send. eff_unfold. by rewrite Ha, Hm.
  - destruct (error_status_raises r Hs) as [m Hm].
    exists m. unfold request_license_email, send. eff_unfold.
    by rewrite Ha, Hm.
Qed.

(** X8: a timeout or a refused connection of the transport makes each
    step raise [NetworkError] with the fixed text of the step; the text of
    the original exception is not kept. *)
Theorem transport_failure_is_network_error (m : string) :
  (fails n (homepage_call config) (Timeout m) →
     (establish_session config n).1
       = Raise (NetworkError ("Request timeout: " +:+ homepage_url config))) ∧
  (fails n (homepage_call config) (ConnectionError m) →
     (establish_session config n).1
       = Raise (NetworkError
                  ("Connection failed: " +:+ homepage_url config))) ∧
  (fails n (login_call config) (Timeout m) →
     (login config n).1
       = Raise (NetworkError "Request timeout during login")) ∧
  (fails n (login_call config) (ConnectionError m) →
     (login config n).1
       = Raise (NetworkError "Connection failed during login")) ∧
  (fails n (license_call config) (Timeout m) →
     (request_license_email config n).1
       = Raise (NetworkError "Request timeout during license request")) ∧
  (fails n (license_call config) (ConnectionError m) →
     (request_license_email config n).1
       = Raise (NetworkError "Connection failed during license request")).
Proof.
  unfold fails, establish_session, login, request_license_email, send.
  eff_unfold. split_and!; by intros ->.
Qed.

(** X9: an exception of the transport that is not one of the three
    classes of the requests library leaves each step as it is. *)
Theorem other_transport_exception_propagates (e : exn) :
  ¬ requests_exception e →
  (fails n (homepage_call config) e →
     (establish_session config n).1 = Raise e) ∧
  (fails n (login_call config) e → (login config n).1 = Raise e) ∧
  (fails n (license_call config) e →
     (request_license_email config n).1 = Raise e).
Proof.
  intros He.
  unfold fails, establish_session, login, request_license_email, send.
  eff_unfold. split_and!; intros ->; by destruct e.
Qed.


End SessionManagerMore.

(** ** The orchestrator *)

Module RequesterMore.
Import SessionManager Requester SessionFacts RequesterFacts.

Lemma success_summary_text (config : Config) :
  {| logger_name := "NexacroLicenseRequester"; level := INFO;
     message :=
       success_summary
         (<["user_id" := user_id config]> $
          <["customer_id" := customer_id config]> $
          <["email" := email config]> ∅) |}
  = success_record config.
Proof.
  unfold success_record, success_summary, get.
  rewrite lookup_insert_eq.
  rewrite lookup_insert_ne, lookup_insert_eq by done.
  rewrite !lookup_insert_ne, lookup_insert_eq by done.
  done.
Qed.

Local Ltac run_unfold :=
  unfold run_leaves, request_license, workflow, with_session, steps,
    on_session, logger_info, report, _log_request_summary, logger_error;
  eff_unfold; simpl.

Local Ltac run_finish :=
  eexists _, _; split; [reflexivity|]; simpl;
  split; [unfold after_calls, exit, enter, record_call, set_closed; simpl;
          by rewrite <-?app_assoc|];
  split; [done|];
  split; [rewrite <-?app_assoc; simpl; reflexivity|];
  split; [done|];
  simpl; by rewrite ?failure_summary_text, ?success_summary_text.

Section WithTable.
Context {table : Unicode.CaseTable}.

Lemma run_fails_at_session (config : Config) (w : World) e n1 :
  establish_session config (enter (net w)) = (Raise e, n1) →
  run_leaves config w false 1 (failure_record (category e) (str e)).
Proof.
  intros H1.
  pose proof (establish_session_calls config (enter (net w))) as C1.
  rewrite H1 in C1. simpl in C1. subst n1.
  run_unfold. rewrite H1. destruct e; simpl; run_finish.
Qed.

Lemma run_fails_at_login (config : Config) (w : World) c n1 e n2 :
  establish_session config (enter (net w)) = (Return c, n1) →
  login config n1 = (Raise e, n2) →
  run_leaves config w false 2 (failure_record (category e) (str e)).
Proof.
  intros H1 H2.
  pose proof (establish_session_calls config (enter (net w))) as C1.
  pose proof (login_calls config n1) as C2.
  rewrite H1 in C1. rewrite H2 in C2. simpl in C1, C2. subst n1 n2.
  run_unfold. rewrite H1. simpl. rewrite H2.
  destruct e; simpl; run_finish.
Qed.

Lemma run_fails_at_license (config : Config) (w : World) c n1 b n2 e n3 :
  establish_session config (enter (net w)) = (Return c, n1) →
  login config n1 = (Return b, n2) →
  request_license_email config n2 = (Raise e, n3) →
  run_leaves config w false 3 (failure_record (category e) (str e)).
Proof.
  intros H1 H2 H3.
  pose proof (establish_session_calls config (enter (net w))) as C1.
  pose proof (login_calls config n1) as C2.
  pose proof (request_license_email_calls config n2) as C3.
  rewrite H1 in C1. rewrite H2 in C2. rewrite H3 in C3.
  simpl in C1, C2, C3. subst n1 n2 n3.
  run_unfold. rewrite H1. simpl. rewrite H2. simpl. rewrite H3.
  destruct e; simpl; run_finish.
Qed.

Lemma run_succeeds (config : Config) (w : World) c n1 b n2 b' n3 :
  establish_session config (enter (net w)) = (Return c, n1) →
  login config n1 = (Return b, n2) →
  request_license_email config n2 = (Return b', n3) →
  run_leaves config w true 3 (success_record config).
Proof.
  intros H1 H2 H3.
  pose proof (establish_session_calls config (enter (net w))) as C1.
  pose proof (login_calls config n1) as C2.
  pose proof (request_license_email_calls config n2) as C3.
  rewrite H1 in C1. rewrite H2 in C2. rewrite H3 in C3.
  simpl in C1, C2, C3. subst n1 n2 n3.
  run_unfold. rewrite H1. simpl. rewrite H2. simpl. rewrite H3.
  simpl; run_finish.
Qed.

(** Every run is one of the four above; what it leaves depends on the
    session the run opens and on nothing else of the world. *)
Lemma run_shape (config : Config) (n0 : Net) :
  ∃ b k final,
    (1 ≤ k ≤ 3)%nat ∧
    (b = true → k = 3%nat ∧ final = success_record config) ∧
    (b = false → ∃ e, final = failure_record (category e) (str e)) ∧
    ∀ w, enter (net w) = n0 → run_leaves config w b k final.
Proof.
  destruct (establish_session config n0) as [[c|e] n1] eqn:H1.
  2: { exists false, 1%nat, (failure_record (category e) (str e)).
       split_and!; [lia | lia | done | by eexists |].
       intros w <-. by eapply run_fails_at_session. }
  destruct (login config n1) as [[b|e] n2] eqn:H2.
  2: { exists false, 2%nat, (failure_record (category e) (str e)).
       split_and!; [lia | lia | done | by eexists |].
       intros w <-. by eapply run_fails_at_login. }
  destruct (request_license_email config n2) as [[b'|e] n3] eqn:H3.
  2: { exists false, 3%nat, (failure_record (category e) (str e)).
       split_and!; [lia | lia | done | by eexists |].
       intros w <-. by eapply run_fails_at_license. }
  exists true, 3%nat, (success_record config).
  split_and!; [lia | lia | done | done |].
  intros w <-. by eapply run_succeeds.
Qed.

(** A run against a portal that accepts the three calls. *)
Lemma accepted_run_leaves (config : Config) (w : World)
    (r1 r2 r3 : response) :
  answers (enter (net w)) (homepage_call config) r1 → accepted r1 →
  answers (record_call (homepage_call config) (enter (net w)))
    (login_call config) r2 → accepted r2 →
  Unicode.occurs_ignoring_case (Unicode.lit "SUCCESS") (text r2) →
  answers (record_call (login_call config)
             (record_call (homepage_call config) (enter (net w))))
    (license_call config) r3 → accepted r3 →
  ¬ Unicode.occurs_ignoring_case (Unicode.lit "FAIL") (text r3) →
  Unicode.occurs_ignoring_case (Unicode.lit "SUCCESS") (text r3) →
  run_leaves config w true 3 (success_record config).
Proof.
  intros A1 K1 A2 K2 S2 A3 K3 F3 S3.
  pose proof (SessionMore.establish_session_answered _ _ _ A1 K1) as H1.
  pose proof (login_answered _ _ _ A2 K2) as H2.
  pose proof (license_answered _ _ _ A3 K3) as H3.
  destruct UnicodeFacts.word_success as [Hws Hus].
  destruct UnicodeFacts.word_fail as [Hwf Huf].
  apply (UnicodeFacts.contains_upper "SUCCESS" _ Hws Hus) in S2.
  rewrite S2 in H2.
  rewrite <-(UnicodeFacts.contains_upper "FAIL" _ Hwf Huf) in F3.
  apply not_true_is_false in F3.
  apply (UnicodeFacts.contains_upper "SUCCESS" _ Hws Hus) in S3.
  rewrite F3, S3 in H3.
  by eapply run_succeeds.
Qed.

(** The headers and the timeout of the three calls. *)
Lemma planned_call_headers (config : Config) (c : http_call) :
  c ∈ planned_calls config →
  headers c !! "User-Agent" = session_headers !! "User-Agent" ∧
  timeout c = request_timeout config.
Proof.
  unfold planned_calls.
  intros [->|[->|[->|[]%elem_of_nil]%elem_of_cons]%elem_of_cons]%elem_of_cons;
    (split; [|done]); [done | | done].
  simpl. apply lookup_union_r. by apply lookup_singleton_ne.
Qed.

End WithTable.

End RequesterMore.

Section OrchestratorMore.
Import Text TextFacts SessionManager Requester SessionFacts SessionMore.
Import RequesterFacts RequesterMore.

Context {table : Unicode.CaseTable}.
Variable config : Config.

(** X11: when the portal accepts the three calls, the login body has
    SUCCESS in it and the license body has SUCCESS and no FAIL (ignoring
    case: in the upper-cased body), [request_license] returns [True] after
    exactly the homepage call, the login call and the license call, in
    this order;
    the session is closed, and the last record of the log is the success
    summary with the user id, the customer id and the email address. *)
Theorem accepted_run_succeeds (w : World) (r1 r2 r3 : response) :
  let n0 := enter (net w) in
  let n1 := record_call (homepage_call config) n0 in
  let n2 := record_call (login_call config) n1 in
  answers n0 (homepage_call config) r1 → accepted r1 →
  answers n1 (login_call config) r2 → accepted r2 →
  Unicode.occurs_ignoring_case (Unicode.lit "SUCCESS") (text r2) →
  answers n2 (license_call config) r3 → accepted r3 →
  ¬ Unicode.occurs_ignoring_case (Unicode.lit "FAIL") (text r3) →
  Unicode.occurs_ignoring_case (Unicode.lit "SUCCESS") (text r3) →
  ∃ w', request_license config w = (Return true, w') ∧
        calls (net w') = (calls (net w) ++ planned_calls config)%list ∧
        closed (net w') = true ∧
        last (log w') = Some (success_record config).
Proof.
  intros n0 n1 n2 A1 K1 A2 K2 S2 A3 K3 F3 S3.
  destruct (accepted_run_leaves config w r1 r2 r3 A1 K1 A2 K2 S2 A3 K3 F3 S3)
    as (w' & new & Hr & Hn & _ & Hl & _ & Hlast).
  exists w'. rewrite Hn, Hl. split_and!; [done | done | done |].
  by rewrite last_app, Hlast.
Qed.

(** X12: on every path, success or failure, [request_license] leaves the
    session closed; the remote side and the file system are as before. *)
Theorem request_license_closes_session (w : World) :
  closed (net (request_license config w).2) = true ∧
  remote (net (request_license config w).2) = remote (net w) ∧
  log_setup_failure (request_license config w).2 = log_setup_failure w.
Proof.
  destruct (run_shape config (enter (net w))) as (b & k & f & _ & _ & _ & H).
  destruct (H w eq_refl) as (w' & new & Hr & Hn & Hs & _).
  rewrite Hr. simpl. by rewrite Hn.
Qed.

(** X13: the calls of a run are the first one, two or three of the
    homepage call, the login call and the license call, added after the
    calls made before; a run that returns [True] has made all three.  So
    no call is repeated, whatever the retry count of the configuration. *)
Theorem calls_are_a_prefix_of_the_plan (w : World) :
  ∃ k, (1 ≤ k ≤ 3)%nat ∧
       calls (net (request_license config w).2)
         = (calls (net w) ++ take k (planned_calls config))%list ∧
       ((request_license config w).1 = Return true → k = 3%nat).
Proof.
  destruct (run_shape config (enter (net w)))
    as (b & k & f & Hk & Hb & _ & H).
  destruct (H w eq_refl) as (w' & new & Hr & Hn & _).
  exists k. rewrite Hr. simpl. rewrite Hn.
  split_and!; [lia | lia | done |].
  intros [= ->]. by apply Hb.
Qed.

(** X14: every call of a run carries the User-Agent header of the session
    and the timeout of the configuration. *)
Theorem every_call_has_agent_and_timeout (w : World) :
  Forall (λ c, headers c !! "User-Agent"
                 = Some
                     "Mozilla/5.0 (Macintosh; Intel Mac OS X 10_15_7) AppleWebKit/537.36"
               ∧ timeout c = request_timeout config)
    (drop (length (calls (net w)))
       (calls (net (request_license config w).2))).
Proof.
  destruct (run_shape config (enter (net w))) as (b & k & f & _ & _ & _ & H).
  destruct (H w eq_refl) as (w' & new & Hr & Hn & _).
  rewrite Hr. simpl. rewrite Hn. simpl.
  rewrite drop_app_length. apply Forall_forall. intros c Hc.
  apply planned_call_headers. by apply (subseteq_take k).
Qed.


(** X16: the result of a run and the network it leaves depend on the
    remote side and on the calls made before, and on nothing else of the
    world: neither on the log nor on whether an earlier session was
    closed. *)
Theorem runs_do_not_interfere (w1 w2 : World) :
  remote (net w1) = remote (net w2) →
  calls (net w1) = calls (net w2) →
  (request_license config w1).1 = (request_license config w2).1 ∧
  net (request_license config w1).2 = net (request_license config w2).2.
Proof.
  intros Hr Hc.
  assert (enter (net w2) = enter (net w1)) as He.
  { unfold enter, set_closed. by rewrite Hr, Hc. }
  destruct (run_shape config (enter (net w1))) as (b & k & f & _ & _ & _ & H).
  destruct (H w1 eq_refl) as (w1' & new1 & Hr1 & Hn1 & _).
  destruct (H w2 He) as (w2' & new2 & Hr2 & Hn2 & _).
  rewrite Hr1, Hr2. simpl. split; [done|].
  rewrite Hn1, Hn2. unfold after_calls. by rewrite Hr, Hc.
Qed.

(** X17: the retry count of the configuration has no effect on a run. *)
Theorem max_retries_is_not_used (k : Z) (w : World) :
  request_license (with_max_retries k config) w = request_license config w.
Proof. by destruct config. Qed.

End OrchestratorMore.

(** ** The entry point *)

Section EntryPointMore.
Import Text TextFacts Cfg ConfigFacts ConfigMore.
Import SessionManager Requester SessionFacts RequesterFacts RequesterMore.

Context {table : Unicode.CaseTable}.
Variable env : gmap string string.
Variable w : World.

(** X18: when the configuration cannot be loaded or does not validate,
    [main] returns 1 without touching the network: the world it leaves is
    the one it found, with one record on the root logger that reports the
    configuration error. *)
Theorem configuration_failure_makes_no_call :
  (∀ e, from_env env = Raise e →
     main env w
       = (Return 1%Z, add_log (configuration_error_record (str e)) w)) ∧
  (∀ config, from_env env = Return config → raises (validate config) →
     main env w
       = (Return 1%Z,
          add_log (configuration_error_record
                     ("Invalid email format: " +:+ email config)) w)).
Proof.
  unfold main, logging_error. eff_unfold. split.
  - intros e He.
    destruct (from_env_cases env) as [(config & Hc)|(v & _ & Hm)];
      [by rewrite Hc in He|].
    rewrite Hm in He. injection He as <-. by rewrite Hm.
  - intros config Hc Hv. rewrite Hc.
    destruct (validate_cases config) as [Hok|Hbad];
      [by rewrite Hok in Hv|].
    by rewrite Hbad.
Qed.

(** X19: when the set-up of the logger raises, [main] returns 1 without
    touching the network and leaves one record on the root logger with the
    text of the exception. *)
Theorem setup_failure_makes_no_call (config : Config) (e : exn) :
  from_env env = Return config → validate config = Return tt →
  log_setup_failure w = Some e →
  ∃ r, main env w = (Return 1%Z, add_log r w) ∧
       logger_name r = "root" ∧ level r = ERROR ∧
       substring_of (str e) (message r).
Proof.
  intros Hc Hv Hs. unfold main, init, logging_error. eff_unfold.
  rewrite Hc, Hv, Hs.
  destruct e; (eexists; split; [reflexivity|]; split_and!; [done..|]);
    simpl; by eexists _, EmptyString; rewrite app_nil_r.
Qed.

End EntryPointMore.

(** ** The payloads *)

Section Payloads.
Import Text TextFacts SessionManager SessionFacts.

Variable config : Config.

(** X20: the query of the license call has exactly the twelve parameters
    of the portal; all of them but p_CustomID and p_Email have the same
    value for every configuration, and these two carry the customer id and
    the email address. *)
Theorem license_params_keys :
  dom (_build_license_params config)
    = ({[ "service"; "domain"; "model"; "format"; "version"; "p_ConType";
          "p_Product"; "p_Language"; "p_CustomID"; "p_Email"; "p_Merge";
          "zip" ]} : gset string) ∧
  size (_build_license_params config) = 12%nat ∧
  _build_license_params config !! "p_CustomID" = Some (customer_id config) ∧
  _build_license_params config !! "p_Email" = Some (email config) ∧
  ∀ other k, k ≠ "p_CustomID" → k ≠ "p_Email" →
    _build_license_params config !! k = _build_license_params other !! k.
Proof.
  split_and!.
  - unfold _build_license_params. rewrite !dom_insert_L, dom_empty_L.
    set_solver.
  - unfold _build_license_params.
    repeat (rewrite map_size_insert_None;
            [|rewrite ?lookup_insert_ne by done; apply lookup_empty]).
    by rewrite map_size_empty.
  - apply license_params_custom_id.
  - unfold _build_license_params.
    rewrite !lookup_insert_ne by done. apply lookup_insert_eq.
  - intros other k H1 H2. unfold _build_license_params.
    rewrite !(lookup_insert _ _ k).
    repeat (case_decide; [first [done | by subst]|]). done.
Qed.

(** X21: the login document starts with the XML declaration, ends with
    the closing tag of the root, and has the user id and the password, as
    they are, between the tags of the columns userId and userPass. *)
Theorem login_xml_wire_format :
  let doc := _build_login_xml config in
  starts_with ("<?xml version=" +:+ quoted "1.0"
                 +:+ " encoding=" +:+ quoted "UTF-8" +:+ "?>") doc = true ∧
  (∃ pre, doc = pre +:+ "</Root>") ∧
  substring_of (tag_id "Col" "userId" +:+ user_id config +:+ "</Col>") doc ∧
  substring_of (tag_id "Col" "userPass" +:+ user_pass config +:+ "</Col>")
    doc.
Proof.
  set (tagU := tag_id "Col" "userId"). set (tagP := tag_id "Col" "userPass").
  set (h0 := String.substring 0
               (String.length login_xml_head - String.length tagU)
               login_xml_head).
  set (m0 := String.substring 6
               (String.length login_xml_mid - 6 - String.length tagP)
               login_xml_mid).
  set (t0 := String.substring 6 (String.length login_xml_tail - 6)
               login_xml_tail).
  set (t1 := String.substring 0 (String.length login_xml_tail - 7)
               login_xml_tail).
  assert (login_xml_head = h0 +:+ tagU) as Hh by (by vm_compute).
  assert (login_xml_mid = "</Col>" +:+ m0 +:+ tagP) as Hm by (by vm_compute).
  assert (login_xml_tail = "</Col>" +:+ t0) as Ht by (by vm_compute).
  assert (login_xml_tail = t1 +:+ "</Root>") as Ht' by (by vm_compute).
  cbv zeta. split_and!; unfold _build_login_xml.
  - by vm_compute.
  - exists (login_xml_head +:+ user_id config +:+ login_xml_mid
              +:+ user_pass config +:+ t1).
    rewrite Ht' at 1. by rewrite !app_assoc.
  - exists h0, (m0 +:+ tagP +:+ user_pass config +:+ login_xml_tail).
    rewrite Hh, Hm. by rewrite !app_assoc.
  - exists (login_xml_head +:+ user_id config +:+ "</Col>" +:+ m0), t0.
    rewrite Hm, Ht. by rewrite !app_assoc.
Qed.

End Payloads.

(** ** From the environment to the exit code *)

Section EndToEnd.
Import Text TextFacts Cfg ConfigFacts ConfigMore.
Import SessionManager Requester SessionFacts RequesterFacts RequesterMore.

Context {table : Unicode.CaseTable}.

(** X22: with the three variables set to something, an email address with
    an at sign, a logger that can be set up and a portal that accepts the
    three calls (a login body with SUCCESS in it, a license body with
    SUCCESS and no FAIL in it, both looked for in the upper-cased body),
    [main] returns 0 after exactly the three calls of the configuration it
    has loaded, and the log ends with the success summary. *)
Theorem main_succeeds (env : gmap string string) (w : World)
    (uid upass mail : string) (r1 r2 r3 : response) :
  let config := make uid upass uid mail in
  let n0 := enter (net w) in
  let n1 := record_call (homepage_call config) n0 in
  let n2 := record_call (login_call config) n1 in
  env !! "NEXACRO_USER_ID" = Some uid → uid ≠ EmptyString →
  env !! "NEXACRO_USER_PASS" = Some upass → upass ≠ EmptyString →
  env !! "NEXACRO_EMAIL" = Some mail → substring_of "@" mail →
  log_setup_failure w = None →
  answers n0 (homepage_call config) r1 → accepted r1 →
  answers n1 (login_call config) r2 → accepted r2 →
  Unicode.occurs_ignoring_case (Unicode.lit "SUCCESS") (text r2) →
  answers n2 (license_call config) r3 → accepted r3 →
  ¬ Unicode.occurs_ignoring_case (Unicode.lit "FAIL") (text r3) →
  Unicode.occurs_ignoring_case (Unicode.lit "SUCCESS") (text r3) →
  ∃ w', main env w = (Return 0%Z, w') ∧
        calls (net w') = (calls (net w) ++ planned_calls config)%list ∧
        last (log w') = Some (success_record config).
Proof.
  intros config n0 n1 n2 Hu Hune Hp Hpne He Hat Hs A1 K1 A2 K2 S2 A3 K3 F3 S3.
  subst config n0 n1 n2.
  assert (mail ≠ EmptyString) as Hmne.
  { intros ->. apply contains_spec in Hat. done. }
  pose proof (from_env_loads env uid upass mail Hu Hune Hp Hpne He Hmne) as Hc.
  assert (validate (make uid upass uid mail) = Return tt) as Hv.
  { unfold validate. apply contains_spec in Hat. simpl. rewrite Hat.
    by destruct mail. }
  destruct (accepted_run_leaves (make uid upass uid mail) w r1 r2 r3
              A1 K1 A2 K2 S2 A3 K3 F3 S3)
    as (w' & new & Hr & Hn & _ & Hl & _ & Hlast).
  exists w'. unfold main, init. eff_unfold.
  rewrite Hc, Hv, Hs, Hr. rewrite Hn, Hl. split_and!; [done | done |].
  by rewrite last_app, Hlast.
Qed.

End EndToEnd.

(** ** The set-up of the logger *)

Section LoggerSetup.
Import Logging.

Variable s : LogSystem.

(** X23: a set-up of the logger that succeeds leaves the level at INFO
    and at least one handler: on a logger without handlers it installs the
    file handler and the console handler, both at INFO and with the same
    format, and on a logger with handlers it adds none, so that setting
    the logger up again leaves the handlers as they are.  A set-up that
    raises has added no handler, and what it raises is what the file
    system raised. *)
Theorem setup_logger_adds_handlers_once :
  (∀ s1, _setup_logger s = (Return tt, s1) →
     logger_level s1 = Some INFO ∧
     (handlers s = [] →
        handlers s1 =
          [ {| handler_sink := FileSink "logs/nexacro_license_request.log"
                                 "a" "utf-8";
               handler_level := INFO; handler_format := log_format |};
            {| handler_sink := StreamSink;
               handler_level := INFO; handler_format := log_format |} ]) ∧
     (handlers s ≠ [] → handlers s1 = handlers s) ∧
     handlers s1 ≠ [] ∧
     ∃ s2, _setup_logger s1 = (Return tt, s2) ∧ handlers s2 = handlers s1) ∧
  (∀ e s1, _setup_logger s = (Raise e, s1) →
     handlers s1 = handlers s ∧
     (mkdir_failure s = Some e ∨ open_failure s = Some e)).
Proof.
  unfold _setup_logger, add_if_none, add_handler, file_handler, mkdir,
    set_level.
  eff_unfold. simpl.
  destruct (mkdir_failure s) as [e1|] eqn:Hm;
    [split; [done | intros e s1 [= <- <-]; auto]|].
  destruct (open_failure s) as [e2|] eqn:Ho;
    [split; [done | intros e s1 [= <- <-]; auto]|].
  simpl. split; [|by destruct (handlers s)].
  intros s1 H1.
  destruct (handlers s) as [|h hs] eqn:Hh; injection H1 as <-; simpl;
    rewrite ?Hm, ?Ho; simpl; split_and!; try done; by eexists.
Qed.

End LoggerSetup.

(** ** The further statements at sample inputs *)

Section MoreSamples.
Import Text Cfg SessionManager Requester.

#[local] Existing Instance Unicode.ascii_table.

(** The message for the environment with the user id alone names the
    email variable and not the user id. *)
Lemma from_env_message_names_exactly_missing_witness :
  from_env Sample.env_id_only
    = Raise (ValueError
               "Missing required environment variables: NEXACRO_USER_PASS, NEXACRO_EMAIL") ∧
  "NEXACRO_EMAIL" ∈ required_vars ∧
  substring_of "NEXACRO_EMAIL"
    "Missing required environment variables: NEXACRO_USER_PASS, NEXACRO_EMAIL".
Proof.
  assert ("NEXACRO_EMAIL" ∈ required_vars) as Hv
    by (do 2 apply list_elem_of_further; apply list_elem_of_here).
  split; [reflexivity|]. split; [exact Hv|].
  apply (from_env_message_names_exactly_missing Sample.env_id_only _
           "NEXACRO_EMAIL" eq_refl Hv).
  left. reflexivity.
Defined.

Lemma from_env_loaded_fields_witness :
  from_env Sample.env = Return Sample.config ∧
  Sample.env !! "NEXACRO_USER_PASS" = Some (user_pass Sample.config) ∧
  request_timeout Sample.config = 30%Z.
Proof.
  assert (from_env Sample.env = Return Sample.config) as H by reflexivity.
  split; [exact H|].
  destruct (from_env_loaded_fields Sample.env Sample.config H)
    as (_ & Hp & _ & _ & _ & _ & _ & Ht & _).
  split; [exact Hp | exact Ht].
Defined.

(** A status 500 with a body that says SUCCESS fails the login. *)
Lemma error_status_is_network_error_witness :
  (400 ≤ status_code Sample2.error_response < 600)%Z ∧
  answers (Sample2.always Sample2.error_response)
    (login_call Sample.config) Sample2.error_response ∧
  ∃ m, (login Sample.config (Sample2.always Sample2.error_response)).1
         = Raise (NetworkError ("HTTP error during login: " +:+ m)).
Proof.
  assert (400 ≤ status_code Sample2.error_response < 600)%Z as Hs
    by (simpl; lia).
  split; [exact Hs|]. split; [reflexivity|].
  apply (proj1 (proj2 (error_status_is_network_error Sample.config
                         (Sample2.always Sample2.error_response)
                         Sample2.error_response Hs))).
  reflexivity.
Defined.

(** A timeout of the transport at the homepage call. *)
Lemma transport_failure_is_network_error_witness :
  fails (Sample2.broken (Timeout "timed out"))
    (homepage_call Sample.config) (Timeout "timed out") ∧
  (establish_session Sample.config (Sample2.broken (Timeout "timed out"))).1
    = Raise (NetworkError
               "Request timeout: https://support.tobesoft.co.kr/Support/?menu=home").
Proof.
  split; [reflexivity|].
  apply (proj1 (transport_failure_is_network_error Sample.config
                  (Sample2.broken (Timeout "timed out")) "timed out")).
  reflexivity.
Defined.

(** An exception of another class at the homepage call. *)
Lemma other_transport_exception_propagates_witness :
  ¬ requests_exception (OtherException "Exception" "Connection refused") ∧
  (establish_session Sample.config
     (Sample2.broken (OtherException "Exception" "Connection refused"))).1
    = Raise (OtherException "Exception" "Connection refused").
Proof.
  split; [exact (λ H : False, H)|].
  apply (proj1 (other_transport_exception_propagates Sample.config
                  (Sample2.broken
                     (OtherException "Exception" "Connection refused"))
                  (OtherException "Exception" "Connection refused")
                  (λ H : False, H))).
  reflexivity.
Defined.


(** The sample portal that accepts the three calls. *)
Lemma accepted_run_succeeds_witness :
  ∃ w', request_license Sample.config Sample.world_ok = (Return true, w') ∧
        calls (net w') = planned_calls Sample.config ∧
        closed (net w') = true ∧
        last (log w') = Some (success_record Sample.config).
Proof.
  apply (accepted_run_succeeds Sample.config Sample.world_ok
           (Sample.ok_response "<html></html>")
           (Sample.ok_response "<Result>SUCCESS</Result>")
           (Sample.ok_response "<Result>SUCCESS</Result>"));
    try reflexivity; try apply accepted_ok.
  - exists (Unicode.lit "<RESULT>"), (Unicode.lit "</RESULT>"). reflexivity.
  - intros H. apply UnicodeFacts.contains_occurs in H. discriminate H.
  - exists (Unicode.lit "<RESULT>"), (Unicode.lit "</RESULT>"). reflexivity.
Defined.

(** Two worlds with the same portal and different logs. *)
Lemma runs_do_not_interfere_witness :
  remote (net Sample.world_ok) = remote (net Sample2.world_ok_logged) ∧
  calls (net Sample.world_ok) = calls (net Sample2.world_ok_logged) ∧
  (request_license Sample.config Sample.world_ok).1
    = (request_license Sample.config Sample2.world_ok_logged).1.
Proof.
  split; [reflexivity|]. split; [reflexivity|].
  apply (runs_do_not_interfere Sample.config Sample.world_ok
           Sample2.world_ok_logged eq_refl eq_refl).
Defined.

(** An email address with no at sign. *)
Lemma configuration_failure_makes_no_call_witness :
  from_env Sample2.env_bad_email
    = Return (make "test_user" "test_pass" "test_user" "invalid-email.com") ∧
  main Sample2.env_bad_email Sample.world_ok
    = (Return 1%Z,
       add_log (configuration_error_record
                  "Invalid email format: invalid-email.com")
         Sample.world_ok).
Proof.
  split; [reflexivity|].
  apply (proj2 (configuration_failure_makes_no_call Sample2.env_bad_email
                  Sample.world_ok)
           (make "test_user" "test_pass" "test_user" "invalid-email.com")
           eq_refl).
  exact I.
Defined.

(** A log directory that cannot be made. *)
Lemma setup_failure_makes_no_call_witness :
  from_env Sample.env = Return Sample.config ∧
  validate Sample.config = Return tt ∧
  ∃ r, main Sample.env Sample2.world_no_log_dir
         = (Return 1%Z, add_log r Sample2.world_no_log_dir) ∧
       logger_name r = "root".
Proof.
  split; [reflexivity|]. split; [reflexivity|].
  destruct (setup_failure_makes_no_call Sample.env Sample2.world_no_log_dir
              Sample.config
              (OtherException "PermissionError" "Permission denied: logs")
              eq_refl eq_refl eq_refl) as (r & Hm & Hn & _).
  exists r. split; [exact Hm | exact Hn].
Defined.

(** The sample environment against the sample portal. *)
Lemma main_succeeds_witness :
  ∃ w', main Sample.env Sample.world_ok = (Return 0%Z, w') ∧
        calls (net w') = planned_calls Sample.config ∧
        last (log w') = Some (success_record Sample.config).
Proof.
  apply (main_succeeds Sample.env Sample.world_ok
           "test_user" "test_pass" "test@example.com"
           (Sample.ok_response "<html></html>")
           (Sample.ok_response "<Result>SUCCESS</Result>")
           (Sample.ok_response "<Result>SUCCESS</Result>"));
    try reflexivity; try discriminate; try apply accepted_ok.
  - exists "test", "example.com". reflexivity.
  - exists (Unicode.lit "<RESULT>"), (Unicode.lit "</RESULT>"). reflexivity.
  - intros H. apply UnicodeFacts.contains_occurs in H. discriminate H.
  - exists (Unicode.lit "<RESULT>"), (Unicode.lit "</RESULT>"). reflexivity.
Defined.

(** The first set-up on a fresh machine. *)
Lemma setup_logger_adds_handlers_once_witness :
  ∃ s1, Logging._setup_logger Sample2.fresh_log_system = (Return tt, s1) ∧
        length (Logging.handlers s1) = 2%nat ∧
        ∃ s2, Logging._setup_logger s1 = (Return tt, s2) ∧
              Logging.handlers s2 = Logging.handlers s1.
Proof.
  eexists. split; [reflexivity|]. split; [reflexivity|].
  eapply (proj1 (setup_logger_adds_handlers_once Sample2.fresh_log_system)).
  reflexivity.
Defined.

End MoreSamples.
